(** * Clipboard monitor: rule engine, rule store, classifier and monitor loop

    A shallow embedding of [clipboard_monitor_gui.go].  The Go globals
    ([monitoring], [replacementRules], [monitorInterval], [lastText]) become
    one record that every function threads explicitly; the host services the
    program calls (package [regexp], package [encoding/json] together with the
    settings file, package [clipboard]) are modelled at their interface.
    Calls of package [log] change nothing the program can observe and are
    left out; [int] is taken to be 64 bits wide. *)

From Stdlib Require Import ZArith List Bool String Ascii Lia.
Import ListNotations.

Local Open Scope string_scope.
Local Open Scope Z_scope.

(** ** Go's fixed-width integers *)

(** [int], [int64] and [time.Duration] are 64-bit two's complement; arithmetic
    that leaves the range wraps around silently. *)
Definition int64_min : Z := - 2 ^ 63.
Definition int64_max : Z := 2 ^ 63 - 1.

Definition in_int64 (z : Z) : bool := (int64_min <=? z) && (z <=? int64_max).

Definition wrap64 (z : Z) : Z := (z + 2 ^ 63) mod 2 ^ 64 - 2 ^ 63.

(** [len(s)] of a Go string: its number of bytes. *)
Definition len (s : string) : Z := Z.of_nat (String.length s).

(** ** Package [regexp], as the program sees it *)

Module regexp.

(** The four entry points the program uses.  [Compile] returning [None]
    stands for a non-nil error. *)
Record Pkg : Type := {
  Regexp : Type;
  Compile : string -> option Regexp;
  MatchString : Regexp -> string -> bool;
  ReplaceAllString : Regexp -> string -> string -> string
}.

(** What the package documentation promises and the proofs below rely on:
    [ReplaceAllString] returns a copy of [src] in which the matches are
    replaced, so a source without any match comes back as it is. *)
Definition replace_needs_match (E : Pkg) : Prop :=
  forall (re : Regexp E) (src repl : string),
    MatchString E re src = false -> ReplaceAllString E re src repl = src.

End regexp.

(** ** A concrete engine for the literal fragment

    Patterns without any metacharacter denote themselves.  On that fragment
    (and for replacement templates without a dollar sign) the functions below
    compute what Go's package computes; a pattern with a metacharacter, and
    the empty pattern, are outside the fragment and are reported as not
    compilable.  The only such pattern used below is the unclosed bracket,
    which Go rejects as well. *)

Module Literal.

Definition metachars : list ascii :=
  list_ascii_of_string "\.+*?()|[]{}^$".

Fixpoint has_meta (p : string) : bool :=
  match p with
  | EmptyString => false
  | String c rest =>
      existsb (Ascii.eqb c) metachars || has_meta rest
  end.

Definition Compile (p : string) : option string :=
  match p with
  | EmptyString => None
  | _ => if has_meta p then None else Some p
  end.

(** Some suffix of [s] starts with [p]. *)
Fixpoint MatchString (p s : string) : bool :=
  String.prefix p s ||
  match s with
  | EmptyString => false
  | String _ rest => MatchString p rest
  end.

(** Left-to-right scan; after a match the scan resumes behind it, which is
    what the counter [skip] is for. *)
Fixpoint replace_from (p repl : string) (skip : nat) (src : string) : string :=
  match src with
  | EmptyString => EmptyString
  | String c rest =>
      match skip with
      | S k => replace_from p repl k rest
      | O =>
          if String.prefix p src
          then (repl ++ replace_from p repl (String.length p - 1) rest)%string
          else String c (replace_from p repl O rest)
      end
  end.

Definition ReplaceAllString (p src repl : string) : string :=
  replace_from p repl O src.

Definition engine : regexp.Pkg :=
  {| regexp.Regexp := string;
     regexp.Compile := Compile;
     regexp.MatchString := MatchString;
     regexp.ReplaceAllString := ReplaceAllString |}.

End Literal.

(** ** Data model and rule engine *)

Section RuleEngine.

Context (E : regexp.Pkg).

(** [type Rule struct]; the compiled matcher is a pointer, [None] is nil. *)
Record Rule : Type := {
  Pattern : string;
  Replacement : string;
  Enabled : bool;
  Regexp : option (regexp.Regexp E)
}.

(** The body of the [for _, rule := range replacementRules] loop of
    [applyRules]: one iteration updates [currentText]. *)
Definition applyRules_body (currentText : string) (rule : Rule) : string :=
  match Enabled rule, Regexp rule with
  | true, Some re => regexp.ReplaceAllString E re currentText (Replacement rule)
  | _, _ => currentText
  end.

Fixpoint applyRules_range (rules : list Rule) (currentText : string) : string :=
  match rules with
  | [] => currentText
  | rule :: rest => applyRules_range rest (applyRules_body currentText rule)
  end.

End RuleEngine.

Arguments Pattern {E} _.
Arguments Replacement {E} _.
Arguments Enabled {E} _.
Arguments Regexp {E} _.
Arguments applyRules_body {E} _ _.
Arguments applyRules_range {E} _ _.

(** ** Content classifier *)

(** *** Runes of a Go string

    The matcher of package [regexp] walks a string rune by rune:
    a byte below [RuneSelf] is a rune of its own, anything else goes through
    [utf8.DecodeRuneInString], and a byte that starts no valid encoding counts
    as [RuneError] of width one. *)

Module utf8.

Definition RuneError : Z := 0xFFFD.
Definition RuneSelf : Z := 0x80.

Definition byte (c : ascii) : Z := Z.of_N (N_of_ascii c).

(** The table [first] together with [acceptRanges]: for a leading byte, the
    size of the encoding and the range allowed for the second byte. *)
Definition first (s0 : Z) : option (nat * Z * Z) :=
  if s0 <? 0xC2 then None
  else if s0 <=? 0xDF then Some (2%nat, 0x80, 0xBF)
  else if s0 =? 0xE0 then Some (3%nat, 0xA0, 0xBF)
  else if s0 <=? 0xEC then Some (3%nat, 0x80, 0xBF)
  else if s0 =? 0xED then Some (3%nat, 0x80, 0x9F)
  else if s0 <=? 0xEF then Some (3%nat, 0x80, 0xBF)
  else if s0 =? 0xF0 then Some (4%nat, 0x90, 0xBF)
  else if s0 <=? 0xF3 then Some (4%nat, 0x80, 0xBF)
  else if s0 =? 0xF4 then Some (4%nat, 0x80, 0x8F)
  else None.

Definition cont (b : Z) : bool := (0x80 <=? b) && (b <=? 0xBF).

Definition DecodeRuneInString (s : string) : Z * nat :=
  match s with
  | EmptyString => (RuneError, 0%nat)
  | String c0 t0 =>
      let s0 := byte c0 in
      if s0 <? RuneSelf then (s0, 1%nat) else
      match first s0 with
      | None => (RuneError, 1%nat)
      | Some (sz, lo, hi) =>
          if (String.length s <? sz)%nat then (RuneError, 1%nat) else
          match t0 with
          | EmptyString => (RuneError, 1%nat)
          | String c1 t1 =>
              let s1 := byte c1 in
              if (s1 <? lo) || (hi <? s1) then (RuneError, 1%nat) else
              if (sz <=? 2)%nat
              then (Z.lor (Z.shiftl (Z.land s0 0x1F) 6) (Z.land s1 0x3F), 2%nat)
              else
              match t1 with
              | EmptyString => (RuneError, 1%nat)
              | String c2 t2 =>
                  let s2 := byte c2 in
                  if negb (cont s2) then (RuneError, 1%nat) else
                  if (sz <=? 3)%nat
                  then (Z.lor (Z.shiftl (Z.land s0 0x0F) 12)
                          (Z.lor (Z.shiftl (Z.land s1 0x3F) 6) (Z.land s2 0x3F)),
                        3%nat)
                  else
                  match t2 with
                  | EmptyString => (RuneError, 1%nat)
                  | String c3 _ =>
                      let s3 := byte c3 in
                      if negb (cont s3) then (RuneError, 1%nat) else
                      (Z.lor (Z.shiftl (Z.land s0 0x07) 18)
                         (Z.lor (Z.shiftl (Z.land s1 0x3F) 12)
                            (Z.lor (Z.shiftl (Z.land s2 0x3F) 6) (Z.land s3 0x3F))),
                       4%nat)
                  end
              end
          end
      end
  end.

(** The runes of a string, in order; [skip] counts the bytes of the rune
    just decoded that are still to be stepped over. *)
Fixpoint runes_from (skip : nat) (s : string) : list Z :=
  match s with
  | EmptyString => []
  | String _ rest =>
      match skip with
      | S k => runes_from k rest
      | O =>
          let '(r, w) := DecodeRuneInString s in
          r :: runes_from (Nat.pred w) rest
      end
  end.

Definition runes (s : string) : list Z := runes_from O s.

(** [utf8.ValidString]: no position of the string decodes to [RuneError] of
    width one, that is, every byte outside the ASCII range belongs to a
    well-formed encoding. *)
Fixpoint valid_from (skip : nat) (s : string) : bool :=
  match s with
  | EmptyString => true
  | String c rest =>
      match skip with
      | S k => valid_from k rest
      | O =>
          let '(_, w) := DecodeRuneInString s in
          ((byte c <? RuneSelf) || negb (w =? 1)%nat)
          && valid_from (Nat.pred w) rest
      end
  end.

Definition ValidString (s : string) : bool := valid_from O s.

End utf8.

(** *** A bracket expression

    A pattern that consists of one bracket expression is a list of inclusive
    rune ranges; it matches a string when some rune of the string lies in one
    of the ranges. *)

Module charclass.

Definition t : Type := list (Z * Z).

Definition mem (cls : t) (r : Z) : bool :=
  existsb (fun range => (fst range <=? r) && (r <=? snd range)) cls.

Definition MatchString (cls : t) (s : string) : bool :=
  existsb (mem cls) (utf8.runes s).

End charclass.

(** The pattern [[\x00-\x08\x0B\x0C\x0E-\x1F]] of [isTextContent]. *)
Definition control_pattern : charclass.t :=
  [(0x00, 0x08); (0x0B, 0x0B); (0x0C, 0x0C); (0x0E, 0x1F)].

Definition maxTextSize : Z := 512 * 512.

Definition isTextContent (content : string) : bool :=
  (len content >? 0) && negb (charclass.MatchString control_pattern content).

Definition isTextTooLarge (content : string) : bool :=
  len content >? maxTextSize.

(** The classifier in the words of the specification: the control-character
    range, and the whitespace that is exempt from it. *)
Definition is_control_byte (b : Z) : bool := (0x00 <=? b) && (b <=? 0x1F).

Definition is_common_whitespace (b : Z) : bool :=
  (b =? 0x09) || (b =? 0x0A) || (b =? 0x0D).

Definition rejected_byte (b : Z) : bool :=
  is_control_byte b && negb (is_common_whitespace b).

Fixpoint bytes (s : string) : list Z :=
  match s with
  | EmptyString => []
  | String c rest => utf8.byte c :: bytes rest
  end.

(** ** Package [time] *)

Module time.

(** A [time.Duration] is an [int64] count of nanoseconds. *)
Definition Millisecond : Z := 1000000.

(** [Duration.Milliseconds]: integer division, rounding toward zero. *)
Definition Milliseconds (d : Z) : Z := Z.quot d Millisecond.

End time.

(** ** The settings file and package [encoding/json] *)

Module json.

(** The file is modelled by the JSON value it holds, not by its characters:
    a settings object stands for the values a decoder reads from the file, and
    indentation carries no data. *)

(** An element of the ["rules"] array.  The struct field tagged [json:"-"]
    has no key; a key left out of an object reads as the zero value of its
    field. *)
Record RuleObject : Type := {
  pattern : string;
  replacement : string;
  enabled : bool
}.

(** The top-level object.  A missing ["rules"] key is the empty list; the
    ["interval_ms"] key is an integer literal of any size, or missing. *)
Record SettingsObject : Type := {
  rules : list RuleObject;
  interval_ms : option Z
}.

(** The encoder does not write a string as it is: scanning it rune by rune
    ([appendString]), it puts the escape of U+FFFD in the place of every byte
    that starts no valid encoding, and the decoder reads that escape as the
    three bytes EF BF BD.  All other escapes are undone by the decoder.  This
    is the string that comes back. *)
Definition replacement_char : string :=
  String "239" (String "191" (String "189" EmptyString)).

Fixpoint written_from (skip : nat) (s : string) : string :=
  match s with
  | EmptyString => EmptyString
  | String c rest =>
      match skip with
      | S k => String c (written_from k rest)
      | O =>
          let '(_, w) := utf8.DecodeRuneInString s in
          if (utf8.RuneSelf <=? utf8.byte c) && (w =? 1)%nat
          then (replacement_char ++ written_from O rest)%string
          else String c (written_from (Nat.pred w) rest)
      end
  end.

Definition written (s : string) : string := written_from O s.

Definition written_object (o : RuleObject) : RuleObject :=
  {| pattern := written (pattern o);
     replacement := written (replacement o);
     enabled := enabled o |}.

(** Both strings of the object are valid UTF-8, as every string is that a
    decoder has produced. *)
Definition valid_object (o : RuleObject) : bool :=
  utf8.ValidString (pattern o) && utf8.ValidString (replacement o).

(** What [os.ReadFile] hands to [json.Unmarshal]: text that is no JSON of the
    expected shape, or a settings object. *)
Inductive Text : Type :=
| Malformed
| Document (d : SettingsObject).

End json.

(** The file [settings.json]: absent (or unreadable), or present. *)
Definition Disk : Type := option json.Text.

Section Program.

Context (E : regexp.Pkg).

(** The anonymous struct of [loadSettings] and [saveSettings]. *)
Record settings : Type := {
  Rules : list (Rule E);
  Interval : Z
}.

(** [json.Unmarshal(file, &settings)]: the struct starts zeroed, a decoded
    rule has a nil matcher, and an integer that does not fit [int] is an
    error. *)
Definition rule_of_object (o : json.RuleObject) : Rule E :=
  {| Pattern := json.pattern o;
     Replacement := json.replacement o;
     Enabled := json.enabled o;
     Regexp := None |}.

Definition Unmarshal (file : json.Text) : option settings :=
  match file with
  | json.Malformed => None
  | json.Document d =>
      let i := match json.interval_ms d with Some z => z | None => 0 end in
      if in_int64 i
      then Some {| Rules := map rule_of_object (json.rules d); Interval := i |}
      else None
  end.

(** [json.MarshalIndent(settings, "", "  ")]; it cannot fail on this struct.
    Every string goes through the encoder, which replaces the bytes that are
    not valid UTF-8. *)
Definition object_of_rule (r : Rule E) : json.RuleObject :=
  {| json.pattern := Pattern r;
     json.replacement := Replacement r;
     json.enabled := Enabled r |}.

Definition MarshalIndent (s : settings) : json.Text :=
  json.Document
    {| json.rules :=
         map (fun r => json.written_object (object_of_rule r)) (Rules s);
       json.interval_ms := Some (Interval s) |}.

(** *** Program state

    The four package-level variables the core uses, and the text of the
    status label that [monitorClipboard] is given. *)
Record State : Type := {
  monitoring : bool;
  replacementRules : list (Rule E);
  monitorInterval : Z;
  lastText : string;
  statusLabel : string
}.

Definition initial : State :=
  {| monitoring := false;
     replacementRules := [];
     monitorInterval := 500 * time.Millisecond;
     lastText := "";
     statusLabel := "Status: Waiting for actions" |}.

Definition set_rules (rs : list (Rule E)) (st : State) : State :=
  {| monitoring := monitoring st;
     replacementRules := rs;
     monitorInterval := monitorInterval st;
     lastText := lastText st;
     statusLabel := statusLabel st |}.

Definition set_interval (d : Z) (st : State) : State :=
  {| monitoring := monitoring st;
     replacementRules := replacementRules st;
     monitorInterval := d;
     lastText := lastText st;
     statusLabel := statusLabel st |}.

Definition set_lastText (s : string) (st : State) : State :=
  {| monitoring := monitoring st;
     replacementRules := replacementRules st;
     monitorInterval := monitorInterval st;
     lastText := s;
     statusLabel := statusLabel st |}.

Definition SetText (s : string) (st : State) : State :=
  {| monitoring := monitoring st;
     replacementRules := replacementRules st;
     monitorInterval := monitorInterval st;
     lastText := lastText st;
     statusLabel := s |}.

(** *** Rule store *)

(** One iteration of the compile loop of [loadSettings]: a non-empty pattern
    is compiled, and on error the rule is left as decoded. *)
Definition compile_rule (r : Rule E) : Rule E :=
  if String.eqb (Pattern r) "" then r
  else
    match regexp.Compile E (Pattern r) with
    | None => r
    | Some re =>
        {| Pattern := Pattern r;
           Replacement := Replacement r;
           Enabled := Enabled r;
           Regexp := Some re |}
    end.

Definition loadSettings (disk : Disk) (st : State) : State :=
  match disk with
  | None => set_rules [] st
  | Some file =>
      match Unmarshal file with
      | None => st
      | Some s =>
          set_interval (wrap64 (Interval s * time.Millisecond))
            (set_rules (map compile_rule (Rules s)) st)
      end
  end.

(** The document [saveSettings] builds from the globals. *)
Definition saved_form (st : State) : json.Text :=
  MarshalIndent
    {| Rules := replacementRules st;
       Interval := time.Milliseconds (monitorInterval st) |}.

(** [saveSettings]; the error of [os.WriteFile] is discarded by the program.
    [written = false] stands for a write that fails before the file is opened
    for writing, which leaves the file as it was; a failure after the open,
    which can leave a truncated file, is not modelled. *)
Definition saveSettings (written : bool) (st : State) (disk : Disk) : Disk :=
  if written then Some (saved_form st) else disk.

(** *** Rule engine on the globals *)

Definition applyRules (st : State) (currentText : string) : string :=
  applyRules_range (replacementRules st) currentText.

(** *** Clipboard and monitor loop *)

(** A Go [error]: nil, or a value with a message. *)
Definition error : Type := option string.

(** The host clipboard during one iteration of the loop: the outcome of
    [clipboard.ReadAll], and the outcome of the n-th call (from 0) of
    [clipboard.WriteAll]. *)
Record Host : Type := {
  ReadAll : string * error;
  WriteAll : nat -> error
}.

(** What one iteration does to the outside world, in order.  [EvApplyRules]
    marks a call of [applyRules]; it has no effect of its own. *)
Inductive Event : Type :=
| EvReadAll
| EvApplyRules (input : string)
| EvWriteAll (data : string) (err : error)
| EvSleep (d : Z).

Definition maxAttempts : nat := 2.

(** The [for i := 0; i < maxAttempts; i++] loop of [writeToClipboard];
    [left] is [maxAttempts - i]. *)
Fixpoint writeToClipboard_from (host : Host) (data : string) (i left : nat)
  : error * list Event :=
  match left with
  | O => (Some "failed to write to clipboard after 2 attempts", [])
  | S left' =>
      match WriteAll host i with
      | None => (None, [EvWriteAll data None])
      | Some e =>
          let '(err, evs) := writeToClipboard_from host data (S i) left' in
          (err, EvWriteAll data (Some e) :: EvSleep (200 * time.Millisecond) :: evs)
      end
  end.

Definition writeToClipboard (host : Host) (data : string) : error * list Event :=
  writeToClipboard_from host data O maxAttempts.

(** One iteration of the [for] loop of [monitorClipboard]. *)
Definition monitor_iteration (host : Host) (st : State) : State * list Event :=
  if negb (monitoring st) then (st, [EvSleep (200 * time.Millisecond)])
  else
    let '(currentText, err) := ReadAll host in
    match err with
    | Some msg =>
        if String.eqb msg "The operation completed successfully."
        then (SetText "Non-text content detected, skipping" st,
              [EvReadAll; EvSleep (monitorInterval st)])
        else (st, [EvReadAll])
    | None =>
        if negb (isTextContent currentText)
        then (SetText "Non-text content detected, skipping" st,
              [EvReadAll; EvSleep (monitorInterval st)])
        else if isTextTooLarge currentText
        then (SetText "Text too large, skipping" st,
              [EvReadAll; EvSleep (monitorInterval st)])
        else if negb (String.eqb currentText (lastText st))
        then
          let updatedText := applyRules st currentText in
          if negb (String.eqb updatedText currentText)
          then
            let '(werr, evs) := writeToClipboard host updatedText in
            match werr with
            | Some _ =>
                (SetText "Failed to write to clipboard" st,
                 ([EvReadAll; EvApplyRules currentText] ++ evs
                    ++ [EvSleep (monitorInterval st)])%list)
            | None =>
                (set_lastText updatedText
                   (SetText "Successfully wrote to clipboard" st),
                 ([EvReadAll; EvApplyRules currentText] ++ evs
                    ++ [EvSleep (monitorInterval st)])%list)
            end
          else (st, [EvReadAll; EvApplyRules currentText;
                     EvSleep (monitorInterval st)])
        else (st, [EvReadAll; EvSleep (monitorInterval st)])
    end.

(** [monitorClipboard] runs forever; a run is cut after the iterations for
    which a host behaviour is given. *)
Fixpoint monitorClipboard (hosts : list Host) (st : State) : State * list Event :=
  match hosts with
  | [] => (st, [])
  | host :: later =>
      let '(st1, evs1) := monitor_iteration host st in
      let '(st2, evs2) := monitorClipboard later st1 in
      (st2, (evs1 ++ evs2)%list)
  end.

(** *** Control surface: the handler of the Add button

    It reads the two entry widgets; on success the rule is appended, the
    settings are saved and both entries are cleared. *)
Record Entries : Type := {
  rulePatternEntry : string;
  ruleReplacementEntry : string
}.

Definition addRuleButton_tapped (written : bool)
    (ui : Entries) (st : State) (disk : Disk) : Entries * State * Disk :=
  if String.eqb (rulePatternEntry ui) "" || String.eqb (ruleReplacementEntry ui) ""
  then (ui, st, disk)
  else
    match regexp.Compile E (rulePatternEntry ui) with
    | None => (ui, st, disk)
    | Some re =>
        let newRule :=
          {| Pattern := rulePatternEntry ui;
             Replacement := ruleReplacementEntry ui;
             Enabled := true;
             Regexp := Some re |} in
        let st' := set_rules (replacementRules st ++ [newRule])%list st in
        ({| rulePatternEntry := ""; ruleReplacementEntry := "" |},
         st',
         saveSettings written st' disk)
    end.

End Program.

Arguments Rules {E} _.
Arguments Interval {E} _.
Arguments rule_of_object {E} _.
Arguments object_of_rule {E} _.
Arguments Unmarshal {E} _.
Arguments MarshalIndent {E} _.
Arguments monitoring {E} _.
Arguments replacementRules {E} _.
Arguments monitorInterval {E} _.
Arguments lastText {E} _.
Arguments statusLabel {E} _.
Arguments initial {E}.
Arguments set_rules {E} _ _.
Arguments set_interval {E} _ _.
Arguments set_lastText {E} _ _.
Arguments SetText {E} _ _.
Arguments compile_rule {E} _.
Arguments loadSettings {E} _ _.
Arguments saved_form {E} _.
Arguments saveSettings {E} _ _ _.
Arguments applyRules {E} _ _.
Arguments writeToClipboard_from _ _ _ _ : clear implicits.
Arguments writeToClipboard _ _ : clear implicits.
Arguments monitor_iteration {E} _ _.
Arguments monitorClipboard {E} _ _.
Arguments addRuleButton_tapped {E} _ _ _ _.

(** ** Concrete rules, files and hosts used in the examples *)

Module Samples.

Definition lit (p repl : string) (on : bool) : Rule Literal.engine :=
  {| Pattern := p; Replacement := repl; Enabled := on;
     Regexp := regexp.Compile Literal.engine p |}.

Definition foo_bar : Rule Literal.engine := lit "foo" "bar" true.
Definition a_aa : Rule Literal.engine := lit "a" "aa" true.
Definition unclosed : Rule Literal.engine := lit "[" "x" true.

(** A rule whose replacement is the single byte FF, which is not UTF-8. *)
Definition raw_byte : Rule Literal.engine := lit "foo" (String "255" "") true.

Definition st_with (rs : list (Rule Literal.engine)) : State Literal.engine :=
  {| monitoring := true;
     replacementRules := rs;
     monitorInterval := 500 * time.Millisecond;
     lastText := "";
     statusLabel := "Monitoring started" |}.

(** A clipboard holding [s]; [fails] write attempts fail before one succeeds. *)
Definition clip (s : string) (fails : nat) : Host :=
  {| ReadAll := (s, None);
     WriteAll := fun n => if (n <? fails)%nat then Some "locked" else None |}.

Fixpoint repeat_string (s : string) (n : nat) : string :=
  match n with
  | O => EmptyString
  | S k => (s ++ repeat_string s k)%string
  end.

(** 262145 bytes, one more than [maxTextSize]. *)
Definition oversized : string :=
  String "x" (repeat_string (repeat_string "abcd" 256) 256).

(** A settings file whose interval, turned into nanoseconds, leaves [int64]. *)
Definition wide_interval : json.Text :=
  json.Document {| json.rules := []; json.interval_ms := Some 9223372036855 |}.

Definition negative_interval : json.Text :=
  json.Document {| json.rules := []; json.interval_ms := Some (-5) |}.

Definition bad_object : json.RuleObject :=
  {| json.pattern := "["; json.replacement := "x"; json.enabled := true |}.

Definition good_object : json.RuleObject :=
  {| json.pattern := "foo"; json.replacement := "bar"; json.enabled := true |}.

Definition quarter_second : json.SettingsObject :=
  {| json.rules := [good_object]; json.interval_ms := Some 250 |}.

(** The state after start-up with [wide_interval] on disk. *)
Definition wide_state : State Literal.engine :=
  loadSettings (Some wide_interval) initial.

End Samples.

(** ** Specification-side notions *)

Section Notions.

Context {E : regexp.Pkg}.

(** A rule takes part in the transformation when it is enabled and has a
    valid matcher. *)
Definition active (r : Rule E) : bool :=
  Enabled r && match Regexp r with Some _ => true | None => false end.

(** [apply] as the specification words it: the rules are consumed from the
    left; an enabled rule with a valid matcher rewrites the current
    intermediate string through its matcher, a disabled rule and a rule
    without a valid matcher pass it on unchanged. *)
Inductive apply_spec : list (Rule E) -> string -> string -> Prop :=
| apply_done : forall text,
    apply_spec [] text text
| apply_rewrite : forall r re rs text text',
    Enabled r = true ->
    Regexp r = Some re ->
    apply_spec rs (regexp.ReplaceAllString E re text (Replacement r)) text' ->
    apply_spec (r :: rs) text text'
| apply_disabled : forall r rs text text',
    Enabled r = false ->
    apply_spec rs text text' ->
    apply_spec (r :: rs) text text'
| apply_no_matcher : forall r rs text text',
    Regexp r = None ->
    apply_spec rs text text' ->
    apply_spec (r :: rs) text text'.

(** The same as a fold. *)
Definition rule_step (text : string) (r : Rule E) : string :=
  if active r
  then match Regexp r with
       | Some re => regexp.ReplaceAllString E re text (Replacement r)
       | None => text
       end
  else text.

(** The rule finds its pattern in [text]. *)
Definition rule_matches (r : Rule E) (text : string) : bool :=
  match Regexp r with
  | Some re => Enabled r && regexp.MatchString E re text
  | None => false
  end.

(** No enabled rule with a valid matcher has a match in the intermediate
    string it is given, all along the rule list. *)
Fixpoint no_rule_matches (rules : list (Rule E)) (text : string) : bool :=
  match rules with
  | [] => true
  | r :: rs =>
      negb (rule_matches r text) && no_rule_matches rs (applyRules_body text r)
  end.

(** Queries on the events of an iteration. *)
Definition is_write (ev : Event) : bool :=
  match ev with EvWriteAll _ _ => true | _ => false end.

Definition is_transform (ev : Event) : bool :=
  match ev with EvApplyRules _ => true | _ => false end.

Definition write_attempts (evs : list Event) : nat :=
  List.length (filter is_write evs).

Definition transforms (evs : list Event) : nat :=
  List.length (filter is_transform evs).

(** [data] was written with success. *)
Definition wrote (data : string) (evs : list Event) : Prop :=
  In (EvWriteAll data None) evs.

(** The persisted fields of a rule list, in order. *)
Definition persisted (rs : list (Rule E)) : list json.RuleObject :=
  map object_of_rule rs.

End Notions.

(** The interval a settings object asks for, in milliseconds: a missing key
    decodes to the zero value. *)
Definition requested_ms (d : json.SettingsObject) : Z :=
  match json.interval_ms d with
  | Some z => z
  | None => 0
  end.

(** The largest number of milliseconds that fits an [int64] of nanoseconds. *)
Definition max_ms : Z := 9223372036854.

(** The first [k] bytes of [s], as far as there are any, are all outside the
    ASCII range. *)
Fixpoint high_prefix (k : nat) (s : string) : bool :=
  match k, s with
  | S k', String c rest => (utf8.RuneSelf <=? utf8.byte c) && high_prefix k' rest
  | _, _ => true
  end.

(** A bracket expression all of whose ranges lie below [RuneSelf]. *)
Definition ascii_only (cls : charclass.t) : Prop :=
  forall r, utf8.RuneSelf <= r -> charclass.mem cls r = false.

(** ** Control surface: the remaining handlers, and whole runs *)

Section ControlSurface.

Context {E : regexp.Pkg}.

Definition set_monitoring (b : bool) (st : State E) : State E :=
  {| monitoring := b;
     replacementRules := replacementRules st;
     monitorInterval := monitorInterval st;
     lastText := lastText st;
     statusLabel := statusLabel st |}.

(** [rule.Enabled = checked] on one element. *)
Definition set_enabled (checked : bool) (r : Rule E) : Rule E :=
  {| Pattern := Pattern r;
     Replacement := Replacement r;
     Enabled := checked;
     Regexp := Regexp r |}.

(** [rules[id] = f(rules[id])]; an index out of range panics, which is
    [None]. *)
Fixpoint update_at (id : nat) (f : Rule E -> Rule E) (rules : list (Rule E))
  {struct rules} : option (list (Rule E)) :=
  match rules, id with
  | [], _ => None
  | r :: rest, O => Some (f r :: rest)
  | r :: rest, S k =>
      match update_at k f rest with
      | Some rest' => Some (r :: rest')
      | None => None
      end
  end.

(** [check.OnChanged] of the list row bound to [id]. *)
Definition ruleCheck_changed (written : bool) (id : nat) (checked : bool)
    (st : State E) (disk : Disk) : option (State E * Disk) :=
  match update_at id (set_enabled checked) (replacementRules st) with
  | None => None
  | Some rules =>
      let st' := set_rules rules st in
      Some (st', saveSettings written st' disk)
  end.

(** [deleteButton.OnTapped] of the list row bound to [id]:
    [append(replacementRules[:id], replacementRules[id+1:]...)], where the
    second slice expression panics unless [id+1 <= len]. *)
Definition deleteButton_tapped (written : bool) (id : nat)
    (st : State E) (disk : Disk) : option (State E * Disk) :=
  if (S id <=? List.length (replacementRules st))%nat
  then
    let st' :=
      set_rules (firstn id (replacementRules st)
                   ++ skipn (S id) (replacementRules st))%list st in
    Some (st', saveSettings written st' disk)
  else None.

(** The Start and Stop buttons.  The label they write to is the one
    [createUI] makes for the window, which is not the label that [main] hands
    to [monitorClipboard]; it is kept beside the state. *)
Definition startButton_tapped (windowLabel : string) (st : State E)
  : string * State E :=
  ("Monitoring started", set_monitoring true st).

Definition stopButton_tapped (windowLabel : string) (st : State E)
  : string * State E :=
  ("Monitoring stopped", set_monitoring false st).

(** The state [main] reaches before the window is shown and the loop is
    started: the package-level initial values, then [loadSettings]. *)
Definition main_start (disk : Disk) : State E := loadSettings disk initial.

(** What can happen after start-up, one thing at a time: a handler of the
    control surface runs, or the loop does one iteration. *)
Inductive Action : Type :=
| TapAdd (ui : Entries) (written : bool)
| ChangeCheck (id : nat) (checked : bool) (written : bool)
| TapDelete (id : nat) (written : bool)
| TapStart
| TapStop
| Iterate (host : Host).

(** [None] is a panic, which ends the process. *)
Definition act (a : Action) (sd : State E * Disk) : option (State E * Disk) :=
  let '(st, disk) := sd in
  match a with
  | TapAdd ui written =>
      let '(_, st', disk') := addRuleButton_tapped written ui st disk in
      Some (st', disk')
  | ChangeCheck id checked written => ruleCheck_changed written id checked st disk
  | TapDelete id written => deleteButton_tapped written id st disk
  | TapStart => Some (snd (startButton_tapped "" st), disk)
  | TapStop => Some (snd (stopButton_tapped "" st), disk)
  | Iterate host => Some (fst (monitor_iteration host st), disk)
  end.

Fixpoint run (actions : list Action) (sd : State E * Disk)
  : option (State E * Disk) :=
  match actions with
  | [] => Some sd
  | a :: later =>
      match act a sd with
      | Some sd' => run later sd'
      | None => None
      end
  end.

(** The matcher of a rule is what the program derives from its pattern: none
    for the empty pattern, else the result of [regexp.Compile]. *)
Definition derived_matcher (r : Rule E) : Prop :=
  Regexp r = if String.eqb (Pattern r) "" then None
             else regexp.Compile E (Pattern r).

(** Both strings of a rule are valid UTF-8. *)
Definition valid_rule (r : Rule E) : bool :=
  utf8.ValidString (Pattern r) && utf8.ValidString (Replacement r).

Definition sound_state (st : State E) : Prop :=
  Forall derived_matcher (replacementRules st)
  /\ in_int64 (monitorInterval st) = true.

(** Two states that differ in the status label at most. *)
Definition same_core (st1 st2 : State E) : Prop :=
  monitoring st1 = monitoring st2
  /\ replacementRules st1 = replacementRules st2
  /\ monitorInterval st1 = monitorInterval st2
  /\ lastText st1 = lastText st2.

(** The clipboard when nobody but the program writes to it: it holds what
    the last successful [WriteAll] put there. *)
Fixpoint clipboard_after (clip : string) (evs : list Event) : string :=
  match evs with
  | [] => clip
  | EvWriteAll data None :: later => clipboard_after data later
  | _ :: later => clipboard_after clip later
  end.

(** A clipboard that holds [clip] and accepts every write. *)
Definition holding (clip : string) : Host :=
  {| ReadAll := (clip, None); WriteAll := fun _ => None |}.

(** [n] iterations of the loop over such a clipboard. *)
Fixpoint undisturbed (n : nat) (clip : string) (st : State E)
  : string * State E * list Event :=
  match n with
  | O => (clip, st, [])
  | S k =>
      let '(st1, evs1) := monitor_iteration (holding clip) st in
      let '(clip2, st2, evs2) := undisturbed k (clipboard_after clip evs1) st1 in
      (clip2, st2, (evs1 ++ evs2)%list)
  end.

(** Nothing is left to do for the loop on a clipboard that holds [clip]:
    monitoring is off, or the text is refused, or it is the text written last,
    or the rules leave it as it is. *)
Definition settled (clip : string) (st : State E) : bool :=
  negb (monitoring st)
  || negb (isTextContent clip)
  || isTextTooLarge clip
  || String.eqb clip (lastText st)
  || String.eqb (applyRules st clip) clip.

Definition is_read (ev : Event) : bool :=
  match ev with EvReadAll => true | _ => false end.

Definition is_idle_tick (ev : Event) : bool :=
  match ev with
  | EvSleep d => d =? 200 * time.Millisecond
  | _ => false
  end.

Definition ends_with_sleep (evs : list Event) : bool :=
  match rev evs with
  | EvSleep _ :: _ => true
  | _ => false
  end.

End ControlSurface.

Arguments Action : clear implicits.

Module Sessions.

(** A settings object whose interval does not fit [int]. *)
Definition huge_interval : json.SettingsObject :=
  {| json.rules := [Samples.good_object]; json.interval_ms := Some (2 ^ 63) |}.

(** A rule is added, then switched off. *)
Definition session : list Action :=
  [TapAdd {| rulePatternEntry := "foo"; ruleReplacementEntry := "bar" |} true;
   ChangeCheck 0 false true].

End Sessions.

(** * Properties *)

Example scenario1 :
  applyRules (Samples.st_with [Samples.foo_bar]) "foofoo" = "barbar".
Proof. reflexivity. Qed.

(** ** Rule engine *)

Section RuleEngineFacts.

Context {E : regexp.Pkg}.

Implicit Types (r : Rule E) (rs rules : list (Rule E)) (text : string).

Lemma applyRules_body_step text r : applyRules_body text r = rule_step text r.
Proof.
  unfold applyRules_body, rule_step, active.
  destruct (Enabled r), (Regexp r); reflexivity.
Qed.

Lemma applyRules_range_fold rs text :
  applyRules_range rs text = fold_left rule_step rs text.
Proof.
  revert text; induction rs as [|r rs IH]; intros text; simpl.
  - reflexivity.
  - rewrite IH, applyRules_body_step. reflexivity.
Qed.

Lemma applyRules_range_app rs1 rs2 text :
  applyRules_range (rs1 ++ rs2) text
  = applyRules_range rs2 (applyRules_range rs1 text).
Proof.
  revert text; induction rs1 as [|r rs1 IH]; intros text; simpl; auto.
Qed.

Lemma inactive_is_noop text r : active r = false -> applyRules_body text r = text.
Proof.
  unfold active, applyRules_body.
  destruct (Enabled r), (Regexp r); simpl; congruence.
Qed.

(** Rules that take no part can be struck from the list. *)
Lemma applyRules_range_filter rs text :
  applyRules_range (filter active rs) text = applyRules_range rs text.
Proof.
  revert text; induction rs as [|r rs IH]; intros text; simpl.
  - reflexivity.
  - destruct (active r) eqn:Hact; simpl.
    + apply IH.
    + rewrite (inactive_is_noop text r Hact). apply IH.
Qed.

Lemma apply_spec_sound rs text : apply_spec rs text (applyRules_range rs text).
Proof.
  revert text; induction rs as [|r rs IH]; intros text; simpl.
  - constructor.
  - unfold applyRules_body.
    destruct (Enabled r) eqn:Hen.
    + destruct (Regexp r) as [re|] eqn:Hre.
      * eapply apply_rewrite; eauto.
      * apply apply_no_matcher; auto.
    + apply apply_disabled; auto.
Qed.

Lemma apply_spec_complete rs text text' :
  apply_spec rs text text' -> text' = applyRules_range rs text.
Proof.
  induction 1 as [text | r re rs text text' Hen Hre _ IH
                 | r rs text text' Hen _ IH | r rs text text' Hre _ IH];
    simpl; unfold applyRules_body.
  - reflexivity.
  - rewrite Hen, Hre. exact IH.
  - rewrite Hen. exact IH.
  - rewrite Hre. destruct (Enabled r); exact IH.
Qed.

(** C1.  [applyRules] folds the rule list over the input from left to
    right: an enabled rule with a valid matcher replaces the matches of its
    pattern in the current intermediate string ([ReplaceAllString], which
    expands back-references in the replacement) and hands the result to the
    next rule; a disabled rule and a rule without matcher leave the
    intermediate string as it is.  The result is the one and only string the
    specification's [apply] relates to the input. *)
Theorem applyRules_folds_left_to_right (st : State E) (text : string) :
  applyRules st text = fold_left rule_step (replacementRules st) text
  /\ apply_spec (replacementRules st) text (applyRules st text)
  /\ (forall text', apply_spec (replacementRules st) text text'
                    <-> text' = applyRules st text)
  /\ (forall r : Rule E,
        (Enabled r = false \/ Regexp r = None) -> rule_step text r = text)
  /\ (forall (r : Rule E) re,
        Enabled r = true -> Regexp r = Some re ->
        rule_step text r = regexp.ReplaceAllString E re text (Replacement r)).
Proof.
  unfold applyRules. repeat split.
  - apply applyRules_range_fold.
  - apply apply_spec_sound.
  - apply apply_spec_complete.
  - intros ->. apply apply_spec_sound.
  - intros r [Hen | Hre]; unfold rule_step, active.
    + rewrite Hen. reflexivity.
    + rewrite Hre. destruct (Enabled r); reflexivity.
  - intros r re Hen Hre. unfold rule_step, active. rewrite Hen, Hre. reflexivity.
Qed.

Lemma no_match_body_noop text r :
  regexp.replace_needs_match E ->
  rule_matches r text = false -> applyRules_body text r = text.
Proof.
  intros Hlib. unfold rule_matches, applyRules_body.
  destruct (Regexp r) as [re|]; destruct (Enabled r); simpl; auto.
Qed.

Lemma no_rule_matches_noop rs text :
  regexp.replace_needs_match E ->
  no_rule_matches rs text = true -> applyRules_range rs text = text.
Proof.
  intros Hlib. induction rs as [|r rs IH]; simpl; intros Hno.
  - reflexivity.
  - apply andb_true_iff in Hno as [Hr Hrs].
    apply negb_true_iff in Hr.
    rewrite (no_match_body_noop text r Hlib Hr) in *.
    auto.
Qed.

(** When nothing matches, every intermediate string is the input itself. *)
Lemma no_rule_matches_iff rs text :
  regexp.replace_needs_match E ->
  no_rule_matches rs text = forallb (fun r => negb (rule_matches r text)) rs.
Proof.
  intros Hlib. induction rs as [|r rs IH]; simpl.
  - reflexivity.
  - destruct (rule_matches r text) eqn:Hr; simpl.
    + reflexivity.
    + rewrite (no_match_body_noop text r Hlib Hr). exact IH.
Qed.

(** C9.  If no enabled rule with a valid matcher finds a match in the
    intermediate string it receives, [applyRules] returns its input. *)
Theorem applyRules_no_match_is_identity (st : State E) (text : string) :
  regexp.replace_needs_match E ->
  no_rule_matches (replacementRules st) text = true ->
  applyRules st text = text.
Proof.
  intros Hlib Hno. unfold applyRules. apply no_rule_matches_noop; assumption.
Qed.

End RuleEngineFacts.

(** The literal engine keeps the promise of the package. *)
Lemma Literal_replace_needs_match : regexp.replace_needs_match Literal.engine.
Proof.
  intros re src repl. simpl. unfold Literal.ReplaceAllString.
  induction src as [|c rest IH]; intros Hno.
  - reflexivity.
  - cbn [Literal.MatchString] in Hno.
    apply orb_false_iff in Hno as [Hpre Hrest].
    cbn [Literal.replace_from]. rewrite Hpre, (IH Hrest). reflexivity.
Qed.

Lemma applyRules_no_match_is_identity_witness :
  regexp.replace_needs_match Literal.engine
  /\ no_rule_matches [Samples.foo_bar; Samples.unclosed] "id 42" = true
  /\ applyRules (Samples.st_with [Samples.foo_bar; Samples.unclosed]) "id 42" = "id 42".
Proof.
  split; [exact Literal_replace_needs_match |].
  split; [reflexivity |].
  apply (applyRules_no_match_is_identity
           (Samples.st_with [Samples.foo_bar; Samples.unclosed]) "id 42").
  - exact Literal_replace_needs_match.
  - reflexivity.
Defined.

(** ** Content classifier *)

Lemma byte_range (c : ascii) : 0 <= utf8.byte c < 256.
Proof.
  unfold utf8.byte. pose proof (N_ascii_bounded c). lia.
Qed.

Lemma lor_lower (a b : Z) : 0 <= a -> 0 <= b -> a <= Z.lor a b.
Proof.
  intros Ha Hb.
  assert (Hsplit : Z.lor a b = a + Z.ldiff b a).
  { rewrite Z.add_nocarry_lxor.
    - apply Z.bits_inj'. intros n Hn.
      rewrite Z.lxor_spec, Z.lor_spec, Z.ldiff_spec.
      destruct (Z.testbit a n), (Z.testbit b n); reflexivity.
    - apply Z.bits_inj'. intros n Hn.
      rewrite Z.land_spec, Z.ldiff_spec, Z.bits_0.
      destruct (Z.testbit a n), (Z.testbit b n); reflexivity. }
  assert (0 <= Z.ldiff b a) by (apply Z.ldiff_nonneg; lia).
  lia.
Qed.

Lemma lor_lower_r (a b : Z) : 0 <= a -> 0 <= b -> b <= Z.lor a b.
Proof. intros. rewrite Z.lor_comm. apply lor_lower; assumption. Qed.

(** The payload bits of a byte, as a remainder. *)
Lemma land_low_bits (b : Z) (n : Z) : 0 <= n -> Z.land b (Z.ones n) = b mod 2 ^ n.
Proof. intros. apply Z.land_ones. assumption. Qed.

Ltac payload_arith :=
  change 0x1F with (Z.ones 5); change 0x0F with (Z.ones 4);
  change 0x07 with (Z.ones 3); change 0x3F with (Z.ones 6);
  rewrite ?Z.land_ones by lia;
  rewrite ?Z.shiftl_mul_pow2 by lia;
  change (2 ^ 3) with 8; change (2 ^ 4) with 16; change (2 ^ 5) with 32;
  change (2 ^ 6) with 64; change (2 ^ 12) with 4096;
  change (2 ^ 18) with 262144.

Ltac mod_bounds := Z.to_euclidean_division_equations; lia.

(** Every rune that takes more than one byte lies outside the ASCII range. *)
Lemma rune2_high (s0 s1 : Z) :
  0xC2 <= s0 <= 0xDF -> 0 <= s1 ->
  utf8.RuneSelf <= Z.lor (Z.shiftl (Z.land s0 0x1F) 6) (Z.land s1 0x3F).
Proof.
  intros H0 H1. unfold utf8.RuneSelf. payload_arith.
  transitivity (s0 mod 32 * 64).
  - mod_bounds.
  - apply lor_lower; mod_bounds.
Qed.

Lemma rune3_high (s0 s1 s2 : Z) :
  0xE0 <= s0 <= 0xEF -> (s0 = 0xE0 -> 0xA0 <= s1) -> 0x80 <= s1 <= 0xBF -> 0 <= s2 ->
  utf8.RuneSelf <=
    Z.lor (Z.shiftl (Z.land s0 0x0F) 12)
      (Z.lor (Z.shiftl (Z.land s1 0x3F) 6) (Z.land s2 0x3F)).
Proof.
  intros H0 HE0 H1 H2. unfold utf8.RuneSelf. payload_arith.
  assert (Hin : 0 <= Z.lor (s1 mod 64 * 64) (s2 mod 64)).
  { apply Z.lor_nonneg; split; mod_bounds. }
  destruct (Z.eq_dec s0 0xE0) as [He | Hne].
  - transitivity (Z.lor (s1 mod 64 * 64) (s2 mod 64)).
    + transitivity (s1 mod 64 * 64).
      * specialize (HE0 He). mod_bounds.
      * apply lor_lower; mod_bounds.
    + apply lor_lower_r; [mod_bounds | assumption].
  - transitivity (s0 mod 16 * 4096).
    + mod_bounds.
    + apply lor_lower; [mod_bounds | assumption].
Qed.

Lemma rune4_high (s0 s1 s2 s3 : Z) :
  0xF0 <= s0 <= 0xF4 -> (s0 = 0xF0 -> 0x90 <= s1) -> 0x80 <= s1 <= 0xBF ->
  0 <= s2 -> 0 <= s3 ->
  utf8.RuneSelf <=
    Z.lor (Z.shiftl (Z.land s0 0x07) 18)
      (Z.lor (Z.shiftl (Z.land s1 0x3F) 12)
         (Z.lor (Z.shiftl (Z.land s2 0x3F) 6) (Z.land s3 0x3F))).
Proof.
  intros H0 HF0 H1 H2 H3. unfold utf8.RuneSelf. payload_arith.
  assert (Hlow : 0 <= Z.lor (s2 mod 64 * 64) (s3 mod 64)).
  { apply Z.lor_nonneg; split; mod_bounds. }
  assert (Hin : 0 <= Z.lor (s1 mod 64 * 4096) (Z.lor (s2 mod 64 * 64) (s3 mod 64))).
  { apply Z.lor_nonneg; split; [mod_bounds | assumption]. }
  destruct (Z.eq_dec s0 0xF0) as [He | Hne].
  - etransitivity; [| apply lor_lower_r; [mod_bounds | assumption]].
    transitivity (s1 mod 64 * 4096).
    + specialize (HF0 He). mod_bounds.
    + apply lor_lower; [mod_bounds | assumption].
  - transitivity (s0 mod 8 * 262144).
    + mod_bounds.
    + apply lor_lower; [mod_bounds | assumption].
Qed.

(** What the table [first] says about a leading byte. *)
Lemma first_spec (s0 : Z) (sz : nat) (lo hi : Z) :
  utf8.first s0 = Some (sz, lo, hi) ->
  0x80 <= lo /\ hi <= 0xBF /\
  ((sz = 2%nat /\ 0xC2 <= s0 <= 0xDF)
   \/ (sz = 3%nat /\ 0xE0 <= s0 <= 0xEF /\ (s0 = 0xE0 -> lo = 0xA0))
   \/ (sz = 4%nat /\ 0xF0 <= s0 <= 0xF4 /\ (s0 = 0xF0 -> lo = 0x90))).
Proof.
  unfold utf8.first.
  repeat match goal with
         | |- context [if ?a <? ?b then _ else _] => destruct (Z.ltb_spec a b)
         | |- context [if ?a <=? ?b then _ else _] => destruct (Z.leb_spec a b)
         | |- context [if ?a =? ?b then _ else _] => destruct (Z.eqb_spec a b)
         end;
    intros Heq; try discriminate; inversion Heq; subst; clear Heq;
    (split; [lia |]); (split; [lia |]);
    first [ left; split; [reflexivity | lia]
          | right; left; split; [reflexivity | split; [lia | intros; lia]]
          | right; right; split; [reflexivity | split; [lia | intros; lia]] ].
Qed.

Lemma cont_range (b : Z) : utf8.cont b = true -> 0x80 <= b <= 0xBF.
Proof.
  unfold utf8.cont. rewrite andb_true_iff, !Z.leb_le. tauto.
Qed.

(** A decoded rune is either the ASCII byte it was read from, or it lies
    outside the ASCII range and so do all the bytes it was read from. *)
Lemma DecodeRuneInString_spec (c0 : ascii) (rest : string) (r : Z) (w : nat) :
  utf8.DecodeRuneInString (String c0 rest) = (r, w) ->
  (utf8.byte c0 < utf8.RuneSelf /\ r = utf8.byte c0 /\ w = 1%nat)
  \/ (utf8.RuneSelf <= utf8.byte c0 /\ utf8.RuneSelf <= r
      /\ high_prefix (Nat.pred w) rest = true).
Proof.
  pose proof (byte_range c0) as Hb0.
  assert (Herr : utf8.RuneSelf <= utf8.byte c0 ->
                 (utf8.RuneError, 1%nat) = (r, w) ->
                 (utf8.byte c0 < utf8.RuneSelf /\ r = utf8.byte c0 /\ w = 1%nat)
                 \/ (utf8.RuneSelf <= utf8.byte c0 /\ utf8.RuneSelf <= r
                     /\ high_prefix (Nat.pred w) rest = true)).
  { intros Hhi Heq. inversion Heq; subst. right.
    repeat split; [assumption | unfold utf8.RuneSelf, utf8.RuneError; lia]. }
  unfold utf8.DecodeRuneInString.
  destruct (Z.ltb_spec (utf8.byte c0) utf8.RuneSelf) as [Hlt | Hge].
  { intros Heq; inversion Heq; subst. left. auto. }
  destruct (utf8.first (utf8.byte c0)) as [[[sz lo] hi]|] eqn:Hfirst; [| auto].
  destruct (first_spec _ _ _ _ Hfirst) as (Hlo & Hhi & Hsz).
  destruct (String.length (String c0 rest) <? sz)%nat; [auto |].
  destruct rest as [|c1 t1]; [auto |].
  pose proof (byte_range c1) as Hb1.
  destruct ((utf8.byte c1 <? lo) || (hi <? utf8.byte c1)) eqn:Hr1; [auto |].
  apply orb_false_iff in Hr1 as [Hr1lo Hr1hi].
  apply Z.ltb_ge in Hr1lo, Hr1hi.
  assert (Hc1 : (utf8.RuneSelf <=? utf8.byte c1) = true)
    by (apply Z.leb_le; unfold utf8.RuneSelf; lia).
  destruct (sz <=? 2)%nat eqn:Hsz2.
  { apply Nat.leb_le in Hsz2.
    destruct Hsz as [[-> H0] | [[-> _] | [-> _]]]; try lia.
    intros Heq; inversion Heq; subst. right. split; [assumption | split].
    - apply rune2_high; lia.
    - cbn [Nat.pred high_prefix]. rewrite Hc1. reflexivity. }
  apply Nat.leb_gt in Hsz2.
  destruct t1 as [|c2 t2]; [auto |].
  pose proof (byte_range c2) as Hb2.
  destruct (utf8.cont (utf8.byte c2)) eqn:Hcont2; cbn [negb]; [| auto].
  apply cont_range in Hcont2.
  assert (Hc2 : (utf8.RuneSelf <=? utf8.byte c2) = true)
    by (apply Z.leb_le; unfold utf8.RuneSelf; lia).
  destruct (sz <=? 3)%nat eqn:Hsz3.
  { apply Nat.leb_le in Hsz3.
    destruct Hsz as [[-> _] | [[-> [H0 HE0]] | [-> _]]]; try lia.
    intros Heq; inversion Heq; subst. right. split; [assumption | split].
    - apply rune3_high; lia.
    - cbn [Nat.pred high_prefix]. rewrite Hc1, Hc2. reflexivity. }
  apply Nat.leb_gt in Hsz3.
  destruct t2 as [|c3 t3]; [auto |].
  pose proof (byte_range c3) as Hb3.
  destruct (utf8.cont (utf8.byte c3)) eqn:Hcont3; cbn [negb]; [| auto].
  apply cont_range in Hcont3.
  assert (Hc3 : (utf8.RuneSelf <=? utf8.byte c3) = true)
    by (apply Z.leb_le; unfold utf8.RuneSelf; lia).
  destruct Hsz as [[-> _] | [[-> _] | [-> [H0 HF0]]]]; try lia.
  intros Heq; inversion Heq; subst. right. split; [assumption | split].
  - apply rune4_high; lia.
  - cbn [Nat.pred high_prefix]. rewrite Hc1, Hc2, Hc3. reflexivity.
Qed.

(** For a bracket expression over ASCII, looking at runes and looking at
    bytes come to the same. *)
Lemma runes_from_bytes (cls : charclass.t) (s : string) :
  ascii_only cls ->
  forall k, high_prefix k s = true ->
  existsb (charclass.mem cls) (utf8.runes_from k s)
  = existsb (charclass.mem cls) (bytes s).
Proof.
  intros Hcls. induction s as [|c rest IH]; intros k Hk.
  - reflexivity.
  - destruct k as [|k].
    + cbn [utf8.runes_from bytes existsb].
      destruct (utf8.DecodeRuneInString (String c rest)) as [r w] eqn:Hd.
      destruct (DecodeRuneInString_spec _ _ _ _ Hd)
        as [(_ & -> & ->) | (Hc & Hr & Hpre)];
        cbn [existsb Nat.pred].
      * rewrite (IH O) by reflexivity. reflexivity.
      * rewrite (Hcls _ Hc), (Hcls _ Hr), (IH _ Hpre). reflexivity.
    + cbn [high_prefix] in Hk. apply andb_true_iff in Hk as [Hc Hpre].
      apply Z.leb_le in Hc.
      cbn [utf8.runes_from bytes existsb].
      rewrite (Hcls _ Hc), (IH _ Hpre). reflexivity.
Qed.

Lemma charclass_MatchString_bytes (cls : charclass.t) (s : string) :
  ascii_only cls ->
  charclass.MatchString cls s = existsb (charclass.mem cls) (bytes s).
Proof.
  intros Hcls. unfold charclass.MatchString, utf8.runes.
  apply runes_from_bytes; [assumption | reflexivity].
Qed.

Ltac bool_to_arith :=
  rewrite ?orb_true_iff, ?andb_true_iff, ?negb_true_iff, ?orb_false_iff,
    ?andb_false_iff, ?Z.leb_le, ?Z.eqb_eq, ?Z.eqb_neq, ?Z.leb_gt.

Lemma control_pattern_ascii : ascii_only control_pattern.
Proof.
  intros r Hr. unfold utf8.RuneSelf in Hr.
  unfold charclass.mem, control_pattern. cbn [existsb fst snd].
  repeat match goal with
         | |- context [?a <=? ?b] => destruct (Z.leb_spec a b); try lia
         end;
    reflexivity.
Qed.

(** The ranges of the pattern are the control range without tab, line feed
    and carriage return. *)
Lemma control_pattern_rejects (b : Z) :
  charclass.mem control_pattern b = rejected_byte b.
Proof.
  apply eq_true_iff_eq.
  unfold charclass.mem, control_pattern, rejected_byte, is_control_byte,
    is_common_whitespace.
  cbn [existsb fst snd].
  bool_to_arith. lia.
Qed.

Lemma len_pos_iff (s : string) : (len s >? 0) = negb (String.eqb s "").
Proof. destruct s; reflexivity. Qed.

Lemma isTextContent_bytes (content : string) :
  isTextContent content
  = negb (String.eqb content "")
    && forallb (fun b => negb (rejected_byte b)) (bytes content).
Proof.
  unfold isTextContent.
  rewrite len_pos_iff, (charclass_MatchString_bytes _ _ control_pattern_ascii).
  f_equal.
  induction (bytes content) as [|b bs IH]; cbn [existsb forallb].
  - reflexivity.
  - rewrite negb_orb, IH, control_pattern_rejects. reflexivity.
Qed.

(** C7.  [isTextContent] accepts a string exactly when it is non-empty and
    none of its bytes is rejected, the rejected bytes being the control range
    0x00 to 0x1F without tab, line feed and carriage return. *)
Theorem isTextContent_iff (content : string) :
  (isTextContent content = true <->
   content <> "" /\ forall b, In b (bytes content) -> rejected_byte b = false)
  /\ (forall b, rejected_byte b = true <->
                0x00 <= b <= 0x1F /\ b <> 0x09 /\ b <> 0x0A /\ b <> 0x0D).
Proof.
  split.
  - rewrite isTextContent_bytes, andb_true_iff, negb_true_iff, forallb_forall.
    split; intros [Hne Hall]; split.
    + intros ->. discriminate.
    + intros b Hb. apply negb_true_iff. auto.
    + apply String.eqb_neq. assumption.
    + intros b Hb. apply negb_true_iff. auto.
  - intros b. unfold rejected_byte, is_control_byte, is_common_whitespace.
    bool_to_arith. lia.
Qed.

Example isTextContent_empty : isTextContent "" = false.
Proof. reflexivity. Qed.

Example isTextContent_tab_newline :
  isTextContent (String "a" (String "009" (String "b" (String "010" "")))) = true.
Proof. reflexivity. Qed.

Example isTextContent_bell : isTextContent (String "a" (String "007" "")) = false.
Proof. reflexivity. Qed.

(** A two-byte rune (U+00E9) and a stray continuation byte are both accepted. *)
Example isTextContent_non_ascii :
  isTextContent (String "195" (String "169" (String "128" ""))) = true.
Proof. reflexivity. Qed.

Section MonitorFacts.

Context {E : regexp.Pkg}.

Implicit Types (st : State E) (host : Host).

(** C8.  [isTextTooLarge] holds exactly when the byte length exceeds the
    ceiling of 512 * 512 = 256 KiB; an iteration that reads such
    content neither calls [applyRules] nor writes to the clipboard, and
    leaves the rules and [lastText] alone. *)
Theorem isTextTooLarge_ceiling host st (content : string) (err : error) :
  (isTextTooLarge content = true <-> 256 * 1024 < len content)
  /\ (ReadAll host = (content, err) ->
      isTextTooLarge content = true ->
      transforms (snd (monitor_iteration host st)) = 0%nat
      /\ write_attempts (snd (monitor_iteration host st)) = 0%nat
      /\ lastText (fst (monitor_iteration host st)) = lastText st
      /\ replacementRules (fst (monitor_iteration host st)) = replacementRules st
      /\ (monitoring st = true -> err = None -> isTextContent content = true ->
          statusLabel (fst (monitor_iteration host st)) = "Text too large, skipping")).
Proof.
  split.
  - unfold isTextTooLarge, maxTextSize. rewrite Z.gtb_ltb, Z.ltb_lt. reflexivity.
  - intros Hread Hbig. unfold monitor_iteration. rewrite Hread, Hbig.
    destruct (monitoring st); cbn [negb].
    + destruct err as [msg|].
      * destruct (String.eqb msg _); cbn; repeat split; intros; discriminate.
      * destruct (isTextContent content); cbn; repeat split; intros; discriminate.
    + cbn. repeat split; intros; discriminate.
Qed.

End MonitorFacts.

Lemma isTextTooLarge_ceiling_witness :
  ReadAll (Samples.clip Samples.oversized 0) = (Samples.oversized, None)
  /\ isTextTooLarge Samples.oversized = true
  /\ write_attempts
       (snd (monitor_iteration (Samples.clip Samples.oversized 0)
               (Samples.st_with [Samples.foo_bar]))) = 0%nat.
Proof.
  split; [reflexivity |].
  assert (Hbig : isTextTooLarge Samples.oversized = true) by (vm_compute; reflexivity).
  split; [exact Hbig |].
  apply (isTextTooLarge_ceiling (Samples.clip Samples.oversized 0)
           (Samples.st_with [Samples.foo_bar]) Samples.oversized None);
    [reflexivity | exact Hbig].
Defined.

(** ** Monitor loop *)

Section LoopFacts.

Context {E : regexp.Pkg}.

Implicit Types (st : State E) (host : Host) (evs : list Event).

Lemma write_attempts_app evs1 evs2 :
  write_attempts (evs1 ++ evs2) = (write_attempts evs1 + write_attempts evs2)%nat.
Proof.
  unfold write_attempts. rewrite filter_app, length_app. reflexivity.
Qed.

(** [writeToClipboard] by the outcome of its two attempts. *)
Lemma writeToClipboard_cases host (data : string) :
  match WriteAll host 0, WriteAll host 1 with
  | None, _ =>
      writeToClipboard host data = (None, [EvWriteAll data None])
  | Some e0, None =>
      writeToClipboard host data
      = (None, [EvWriteAll data (Some e0); EvSleep (200 * time.Millisecond);
                EvWriteAll data None])
  | Some e0, Some e1 =>
      writeToClipboard host data
      = (Some "failed to write to clipboard after 2 attempts",
         [EvWriteAll data (Some e0); EvSleep (200 * time.Millisecond);
          EvWriteAll data (Some e1); EvSleep (200 * time.Millisecond)])
  end.
Proof.
  unfold writeToClipboard, maxAttempts. cbn [writeToClipboard_from].
  destruct (WriteAll host 0); [| reflexivity].
  destruct (WriteAll host 1); reflexivity.
Qed.

(** Whatever the host does, every write event of [writeToClipboard] carries
    [data], a successful one comes last, and success is reported exactly when
    there is one. *)
Lemma writeToClipboard_from_events host (data : string) (i left : nat) :
  forall err evs,
    writeToClipboard_from host data i left = (err, evs) ->
    (write_attempts evs <= left)%nat
    /\ (forall d, wrote d evs -> d = data /\ err = None)
    /\ (err = None -> wrote data evs).
Proof.
  revert i. induction left as [|left IH]; intros i err evs; cbn [writeToClipboard_from].
  - intros Heq; inversion Heq; subst.
    split; [unfold write_attempts; cbn; lia |].
    split; [intros d [] | discriminate].
  - destruct (WriteAll host i) as [e|].
    + destruct (writeToClipboard_from host data (S i) left) as [err' evs'] eqn:Hrec.
      destruct (IH _ _ _ Hrec) as (Hn & Hw & Hs).
      intros Heq; inversion Heq; subst.
      split; [unfold write_attempts in *; cbn; lia |].
      split.
      * intros d [Hh | [Hh | Hin]]; try discriminate. exact (Hw _ Hin).
      * intros Hnone. right. right. apply Hs. assumption.
    + intros Heq; inversion Heq; subst.
      split; [unfold write_attempts; cbn; lia |].
      split.
      * intros d [Hh | []]. inversion Hh. auto.
      * intros _. left. reflexivity.
Qed.

(** The iteration once it has reached the write step. *)
Lemma monitor_iteration_write_step host st (currentText : string) :
  monitoring st = true ->
  ReadAll host = (currentText, None) ->
  isTextContent currentText = true ->
  isTextTooLarge currentText = false ->
  String.eqb currentText (lastText st) = false ->
  String.eqb (applyRules st currentText) currentText = false ->
  monitor_iteration host st
  = let '(werr, wevs) := writeToClipboard host (applyRules st currentText) in
    (match werr with
     | Some _ => SetText "Failed to write to clipboard" st
     | None => set_lastText (applyRules st currentText)
                 (SetText "Successfully wrote to clipboard" st)
     end,
     [EvReadAll; EvApplyRules currentText] ++ wevs ++ [EvSleep (monitorInterval st)])%list.
Proof.
  intros Hmon Hread Htext Hsmall Hnew Hchanged.
  unfold monitor_iteration.
  rewrite Hmon, Hread, Htext, Hsmall, Hnew, Hchanged. cbn [negb].
  destruct (writeToClipboard host (applyRules st currentText)) as [[e|] wevs];
    reflexivity.
Qed.

(** C6.  When the iteration has read new text, accepted it, and the rules
    changed it, the transformed value is written with at most two attempts,
    the second only after the first failed and a pause of 200 ms.  If the
    first or the second attempt succeeds, the status says so and [lastText]
    becomes the transformed value; if both fail, the status reports the
    failure and [lastText] keeps its value. *)
Theorem write_back_two_attempts host st (currentText : string) :
  monitoring st = true ->
  ReadAll host = (currentText, None) ->
  isTextContent currentText = true ->
  isTextTooLarge currentText = false ->
  String.eqb currentText (lastText st) = false ->
  String.eqb (applyRules st currentText) currentText = false ->
  let updatedText := applyRules st currentText in
  let st' := fst (monitor_iteration host st) in
  let evs := snd (monitor_iteration host st) in
  (1 <= write_attempts evs <= 2)%nat
  /\ (forall d err, In (EvWriteAll d err) evs -> d = updatedText)
  /\ match WriteAll host 0, WriteAll host 1 with
     | None, _ =>
         write_attempts evs = 1%nat
         /\ lastText st' = updatedText
         /\ statusLabel st' = "Successfully wrote to clipboard"
         /\ evs = [EvReadAll; EvApplyRules currentText;
                   EvWriteAll updatedText None;
                   EvSleep (monitorInterval st)]
     | Some e0, None =>
         write_attempts evs = 2%nat
         /\ lastText st' = updatedText
         /\ statusLabel st' = "Successfully wrote to clipboard"
         /\ evs = [EvReadAll; EvApplyRules currentText;
                   EvWriteAll updatedText (Some e0);
                   EvSleep (200 * time.Millisecond);
                   EvWriteAll updatedText None;
                   EvSleep (monitorInterval st)]
     | Some e0, Some e1 =>
         write_attempts evs = 2%nat
         /\ lastText st' = lastText st
         /\ statusLabel st' = "Failed to write to clipboard"
         /\ evs = [EvReadAll; EvApplyRules currentText;
                   EvWriteAll updatedText (Some e0);
                   EvSleep (200 * time.Millisecond);
                   EvWriteAll updatedText (Some e1);
                   EvSleep (200 * time.Millisecond);
                   EvSleep (monitorInterval st)]
     end.
Proof.
  intros Hmon Hread Htext Hsmall Hnew Hchanged updatedText st' evs.
  subst st' evs.
  rewrite (monitor_iteration_write_step host st currentText) by assumption.
  fold updatedText.
  pose proof (writeToClipboard_cases host updatedText) as Hcases.
  destruct (WriteAll host 0) as [e0|]; [destruct (WriteAll host 1) as [e1|] |];
    rewrite Hcases; cbn [fst snd app];
    (split; [unfold write_attempts; cbn; lia |]);
    (split;
     [intros d err Hin; cbn in Hin;
      repeat (destruct Hin as [Hin | Hin]; [try discriminate; congruence |]);
      destruct Hin
     |]);
    repeat split.
Qed.

End LoopFacts.

Lemma write_back_two_attempts_witness :
  monitoring (Samples.st_with [Samples.foo_bar]) = true
  /\ ReadAll (Samples.clip "foofoo" 1) = ("foofoo", None)
  /\ isTextContent "foofoo" = true
  /\ isTextTooLarge "foofoo" = false
  /\ String.eqb "foofoo" (lastText (Samples.st_with [Samples.foo_bar])) = false
  /\ String.eqb (applyRules (Samples.st_with [Samples.foo_bar]) "foofoo") "foofoo"
     = false
  /\ lastText (fst (monitor_iteration (Samples.clip "foofoo" 1)
                      (Samples.st_with [Samples.foo_bar]))) = "barbar"
  /\ write_attempts (snd (monitor_iteration (Samples.clip "foofoo" 1)
                            (Samples.st_with [Samples.foo_bar]))) = 2%nat.
Proof.
  do 6 (split; [reflexivity |]).
  pose proof (write_back_two_attempts (Samples.clip "foofoo" 1)
                (Samples.st_with [Samples.foo_bar]) "foofoo"
                eq_refl eq_refl eq_refl eq_refl eq_refl eq_refl)
    as (_ & _ & Hcase).
  cbn [Samples.clip WriteAll Nat.ltb Nat.leb] in Hcase.
  destruct Hcase as (Hn & Hlast & _).
  split; [exact Hlast | exact Hn].
Defined.

Section FeedbackFacts.

Context {E : regexp.Pkg}.

Implicit Types (st : State E) (host : Host) (evs : list Event).

Lemma wrote_app evs1 evs2 (d : string) :
  wrote d (evs1 ++ evs2) <-> wrote d evs1 \/ wrote d evs2.
Proof. unfold wrote. apply in_app_iff. Qed.

(** A successful write is recorded in [lastText]. *)
Lemma successful_write_recorded host st (T : string) :
  wrote T (snd (monitor_iteration host st)) ->
  lastText (fst (monitor_iteration host st)) = T.
Proof.
  unfold monitor_iteration.
  destruct (monitoring st); cbn [negb].
  2:{ cbn. intros [Hh | []]. discriminate. }
  destruct (ReadAll host) as [currentText [msg|]].
  { destruct (String.eqb msg _); cbn;
      intros Hin; repeat (destruct Hin as [Hin | Hin]; [discriminate |]);
      destruct Hin. }
  destruct (isTextContent currentText); cbn [negb].
  2:{ cbn. intros Hin. repeat (destruct Hin as [Hin | Hin]; [discriminate |]).
      destruct Hin. }
  destruct (isTextTooLarge currentText).
  { cbn. intros Hin. repeat (destruct Hin as [Hin | Hin]; [discriminate |]).
    destruct Hin. }
  destruct (String.eqb currentText (lastText st)); cbn [negb].
  { cbn. intros Hin. repeat (destruct Hin as [Hin | Hin]; [discriminate |]).
    destruct Hin. }
  destruct (String.eqb (applyRules st currentText) currentText); cbn [negb].
  { cbn. intros Hin. repeat (destruct Hin as [Hin | Hin]; [discriminate |]).
    destruct Hin. }
  destruct (writeToClipboard host (applyRules st currentText)) as [werr wevs] eqn:Hw.
  unfold writeToClipboard in Hw.
  destruct (writeToClipboard_from_events _ _ _ _ _ _ Hw) as (_ & Hdata & _).
  assert (Hin : forall z,
             wrote T ([EvReadAll; EvApplyRules currentText] ++ wevs
                        ++ [EvSleep z]) ->
             T = applyRules st currentText /\ werr = None).
  { intros z Hin. apply wrote_app in Hin as [Hin | Hin].
    - destruct Hin as [Hh | [Hh | []]]; discriminate.
    - apply wrote_app in Hin as [Hin | Hin].
      + exact (Hdata _ Hin).
      + destruct Hin as [Hh | []]. discriminate. }
  destruct werr as [e|]; cbn [fst snd]; intros Hwrote;
    destruct (Hin _ Hwrote) as [-> Hnone].
  - discriminate.
  - reflexivity.
Qed.

(** An iteration that reads the value of [lastText] changes nothing but,
    possibly, the status label. *)
Lemma unchanged_value_skipped host st :
  fst (ReadAll host) = lastText st ->
  transforms (snd (monitor_iteration host st)) = 0%nat
  /\ write_attempts (snd (monitor_iteration host st)) = 0%nat
  /\ lastText (fst (monitor_iteration host st)) = lastText st
  /\ replacementRules (fst (monitor_iteration host st)) = replacementRules st
  /\ monitoring (fst (monitor_iteration host st)) = monitoring st
  /\ monitorInterval (fst (monitor_iteration host st)) = monitorInterval st.
Proof.
  unfold monitor_iteration.
  destruct (ReadAll host) as [currentText err]. cbn [fst]. intros ->.
  rewrite String.eqb_refl.
  destruct (monitoring st) eqn:Hmon; cbn [negb]; [| cbn; repeat split; auto].
  destruct err as [msg|].
  - destruct (String.eqb msg _); cbn; repeat split; auto.
  - destruct (isTextContent (lastText st)); cbn [negb]; [| cbn; repeat split; auto].
    destruct (isTextTooLarge (lastText st)); cbn; repeat split; auto.
Qed.

(** C2, as the code has it.  After an iteration has written a transformed
    text T with success, [lastText] is T, and whatever the control surface did
    to the rules or the monitoring flag in between, an iteration that reads
    T calls [applyRules] not at all and writes nothing: the value is
    recognised by comparison with [lastText], not by the rules leaving it
    alone. *)
Theorem written_text_not_reprocessed host st (T : string) :
  wrote T (snd (monitor_iteration host st)) ->
  lastText (fst (monitor_iteration host st)) = T
  /\ forall host' st',
       lastText st' = lastText (fst (monitor_iteration host st)) ->
       fst (ReadAll host') = T ->
       transforms (snd (monitor_iteration host' st')) = 0%nat
       /\ write_attempts (snd (monitor_iteration host' st')) = 0%nat
       /\ lastText (fst (monitor_iteration host' st')) = T
       /\ replacementRules (fst (monitor_iteration host' st')) = replacementRules st'.
Proof.
  intros Hwrote.
  pose proof (successful_write_recorded host st T Hwrote) as Hlast.
  split; [exact Hlast |].
  intros host' st' Hsame Hread.
  rewrite Hlast in Hsame.
  destruct (unchanged_value_skipped host' st') as (Ht & Hw & Hl & Hr & _).
  { congruence. }
  rewrite Hl. auto.
Qed.

End FeedbackFacts.

Lemma written_text_not_reprocessed_witness :
  wrote "barbar"
    (snd (monitor_iteration (Samples.clip "foofoo" 0)
            (Samples.st_with [Samples.foo_bar])))
  /\ write_attempts
       (snd (monitor_iteration (Samples.clip "barbar" 0)
               (fst (monitor_iteration (Samples.clip "foofoo" 0)
                       (Samples.st_with [Samples.foo_bar]))))) = 0%nat.
Proof.
  assert (Hw : wrote "barbar"
                 (snd (monitor_iteration (Samples.clip "foofoo" 0)
                         (Samples.st_with [Samples.foo_bar])))).
  { vm_compute. right. right. left. reflexivity. }
  split; [exact Hw |].
  destruct (written_text_not_reprocessed (Samples.clip "foofoo" 0)
              (Samples.st_with [Samples.foo_bar]) "barbar" Hw) as [_ Hnext].
  apply (Hnext (Samples.clip "barbar" 0)
           (fst (monitor_iteration (Samples.clip "foofoo" 0)
                   (Samples.st_with [Samples.foo_bar]))));
    reflexivity.
Defined.

(** C2 as written also asks that the rules leave T alone.  With the single
    rule that replaces "a" by "aa", the clipboard text "a" is rewritten
    to "aa" and written back; applying the rules to "aa" gives
    "aaaa". *)
Lemma written_text_not_a_fixpoint :
  wrote "aa"
    (snd (monitor_iteration (Samples.clip "a" 0) (Samples.st_with [Samples.a_aa])))
  /\ applyRules
       (fst (monitor_iteration (Samples.clip "a" 0) (Samples.st_with [Samples.a_aa])))
       "aa" = "aaaa"
  /\ applyRules
       (fst (monitor_iteration (Samples.clip "a" 0) (Samples.st_with [Samples.a_aa])))
       "aa" <> "aa".
Proof.
  split; [| split].
  - vm_compute. right. right. left. reflexivity.
  - reflexivity.
  - vm_compute. discriminate.
Qed.

(** ** Rule store *)

Lemma wrap64_small (z : Z) : in_int64 z = true -> wrap64 z = z.
Proof.
  unfold in_int64, int64_min, int64_max, wrap64.
  rewrite andb_true_iff, !Z.leb_le. intros [Hlo Hhi].
  rewrite Z.mod_small; lia.
Qed.

Lemma Milliseconds_in_int64 (d : Z) :
  in_int64 d = true -> in_int64 (time.Milliseconds d) = true.
Proof.
  unfold in_int64, int64_min, int64_max, time.Milliseconds, time.Millisecond.
  rewrite !andb_true_iff, !Z.leb_le. intros [Hlo Hhi].
  change (2 ^ 63) with 9223372036854775808 in *.
  split; mod_bounds.
Qed.

Lemma Milliseconds_back_in_int64 (d : Z) :
  in_int64 d = true ->
  in_int64 (time.Milliseconds d * time.Millisecond) = true.
Proof.
  unfold in_int64, int64_min, int64_max, time.Milliseconds, time.Millisecond.
  rewrite !andb_true_iff, !Z.leb_le. intros [Hlo Hhi].
  change (2 ^ 63) with 9223372036854775808 in *.
  split; mod_bounds.
Qed.

Lemma Milliseconds_exact (d : Z) :
  d mod time.Millisecond = 0 -> time.Milliseconds d * time.Millisecond = d.
Proof.
  unfold time.Milliseconds, time.Millisecond. intros Hmod. mod_bounds.
Qed.

Section StoreFacts.

Context {E : regexp.Pkg}.

Implicit Types (st : State E) (r : Rule E) (o : json.RuleObject).

Lemma object_of_compiled o : object_of_rule (compile_rule (E := E) (rule_of_object o)) = o.
Proof.
  unfold compile_rule. cbn [rule_of_object Pattern].
  destruct (String.eqb (json.pattern o) "").
  - destruct o; reflexivity.
  - destruct (regexp.Compile E (json.pattern o)); destruct o; reflexivity.
Qed.

Lemma persisted_compiled (os : list json.RuleObject) :
  persisted (map (compile_rule (E := E)) (map rule_of_object os)) = os.
Proof.
  unfold persisted. induction os as [|o os IH]; cbn [map].
  - reflexivity.
  - rewrite object_of_compiled, IH. reflexivity.
Qed.

Lemma valid_written_from (s : string) :
  forall k, utf8.valid_from k s = true -> json.written_from k s = s.
Proof.
  induction s as [|c rest IH]; intros k; [reflexivity |].
  destruct k as [|k]; cbn [utf8.valid_from json.written_from].
  - destruct (utf8.DecodeRuneInString (String c rest)) as [r w].
    rewrite andb_true_iff, orb_true_iff. intros [Hhere Hrest].
    assert (Hkeep : (utf8.RuneSelf <=? utf8.byte c) && (w =? 1)%nat = false).
    { destruct Hhere as [Hascii | Hwide].
      - apply Z.ltb_lt in Hascii.
        destruct (Z.leb_spec utf8.RuneSelf (utf8.byte c)); [lia | reflexivity].
      - apply negb_true_iff in Hwide. rewrite Hwide. apply andb_false_r. }
    rewrite Hkeep, (IH _ Hrest). reflexivity.
  - intros Hrest. rewrite (IH _ Hrest). reflexivity.
Qed.

(** The encoder gives back a valid string as it is. *)
Lemma valid_written (s : string) : utf8.ValidString s = true -> json.written s = s.
Proof. apply valid_written_from. Qed.

Lemma valid_objects_written (rs : list (Rule E)) :
  forallb valid_rule rs = true ->
  map (fun r => json.written_object (object_of_rule r)) rs = persisted rs.
Proof.
  unfold persisted. induction rs as [|r rs IH]; cbn [forallb map]; [reflexivity |].
  rewrite andb_true_iff. unfold valid_rule at 1. rewrite andb_true_iff.
  intros [[Hp Hr] Hrest]. rewrite (IH Hrest).
  unfold json.written_object, object_of_rule.
  cbn [json.pattern json.replacement json.enabled].
  rewrite (valid_written _ Hp), (valid_written _ Hr). reflexivity.
Qed.

Lemma loadSettings_saved st st0 :
  in_int64 (monitorInterval st) = true ->
  loadSettings (Some (saved_form st)) st0
  = set_interval (time.Milliseconds (monitorInterval st) * time.Millisecond)
      (set_rules
         (map compile_rule
            (map rule_of_object
               (map (fun r => json.written_object (object_of_rule r))
                  (replacementRules st))))
         st0).
Proof.
  intros Hrange. unfold loadSettings, saved_form, MarshalIndent, Unmarshal.
  cbn [json.interval_ms json.rules Rules Interval].
  rewrite (Milliseconds_in_int64 _ Hrange).
  cbn [Rules Interval].
  rewrite (wrap64_small _ (Milliseconds_back_in_int64 _ Hrange)).
  reflexivity.
Qed.

Lemma compile_rule_fields r :
  Pattern (compile_rule r) = Pattern r
  /\ Replacement (compile_rule r) = Replacement r
  /\ Enabled (compile_rule r) = Enabled r.
Proof.
  unfold compile_rule. destruct (String.eqb (Pattern r) ""); [auto |].
  destruct (regexp.Compile E (Pattern r)); auto.
Qed.

Lemma reloaded_fields (rs : list (Rule E)) :
  map Pattern (map (compile_rule (E := E)) (map rule_of_object (persisted rs)))
  = map Pattern rs
  /\ map Replacement (map (compile_rule (E := E)) (map rule_of_object (persisted rs)))
     = map Replacement rs
  /\ map Enabled (map (compile_rule (E := E)) (map rule_of_object (persisted rs)))
     = map Enabled rs.
Proof.
  unfold persisted. induction rs as [|r rs (IHp & IHr & IHe)]; cbn [map].
  - auto.
  - destruct (compile_rule_fields (rule_of_object (object_of_rule r)))
      as (Hp & Hr & He).
    rewrite Hp, Hr, He, IHp, IHr, IHe. auto.
Qed.

Lemma compiled_is_derived (o : json.RuleObject) :
  derived_matcher (compile_rule (E := E) (rule_of_object o)).
Proof.
  unfold derived_matcher, compile_rule. cbn [rule_of_object Pattern].
  destruct (String.eqb (json.pattern o) "") eqn:Hp;
    cbn [rule_of_object Pattern Regexp].
  - rewrite Hp. reflexivity.
  - destruct (regexp.Compile E (json.pattern o)) eqn:Hc;
      cbn [rule_of_object Pattern Regexp]; rewrite Hp; congruence.
Qed.

Lemma same_fields_same_objects (rs1 rs2 : list (Rule E)) :
  map Pattern rs1 = map Pattern rs2 ->
  map Replacement rs1 = map Replacement rs2 ->
  map Enabled rs1 = map Enabled rs2 ->
  persisted rs1 = persisted rs2.
Proof.
  unfold persisted. revert rs2; induction rs1 as [|r1 rs1 IH]; intros [|r2 rs2];
    cbn [map]; try discriminate; [reflexivity |].
  intros Hp Hr He. inversion Hp. inversion Hr. inversion He.
  rewrite (IH rs2) by assumption.
  unfold object_of_rule at 1 3. congruence.
Qed.

(** Whatever the interval, the rules come back, and the interval comes back
    rounded toward zero to whole milliseconds. *)
Lemma save_then_load_rounds st st0 (disk : Disk) :
  in_int64 (monitorInterval st) = true ->
  forallb valid_rule (replacementRules st) = true ->
  replacementRules (loadSettings (saveSettings true st disk) st0)
  = map compile_rule (map rule_of_object (persisted (replacementRules st)))
  /\ monitorInterval (loadSettings (saveSettings true st disk) st0)
     = time.Milliseconds (monitorInterval st) * time.Millisecond.
Proof.
  intros Hrange Hvalid. cbn [saveSettings].
  rewrite (loadSettings_saved st st0 Hrange).
  cbn [set_interval set_rules replacementRules monitorInterval].
  rewrite (valid_objects_written _ Hvalid).
  split; reflexivity.
Qed.

(** C3, as the code has it.  For settings whose interval is a whole number
    of milliseconds and whose pattern and replacement strings are valid UTF-8,
    saving and loading the saved form gives back the pattern, the replacement
    and the enabled flag of every rule, in order, and the interval.  This
    holds whatever the patterns are: the matcher is not part of the saved
    form, which is the same for any two states that agree on these fields, and
    load derives every matcher again from its pattern. *)
Theorem settings_round_trip st st0 (disk : Disk) :
  in_int64 (monitorInterval st) = true ->
  monitorInterval st mod time.Millisecond = 0 ->
  forallb valid_rule (replacementRules st) = true ->
  map Pattern (replacementRules (loadSettings (saveSettings true st disk) st0))
  = map Pattern (replacementRules st)
  /\ map Replacement (replacementRules (loadSettings (saveSettings true st disk) st0))
     = map Replacement (replacementRules st)
  /\ map Enabled (replacementRules (loadSettings (saveSettings true st disk) st0))
     = map Enabled (replacementRules st)
  /\ monitorInterval (loadSettings (saveSettings true st disk) st0)
     = monitorInterval st
  /\ Forall derived_matcher
       (replacementRules (loadSettings (saveSettings true st disk) st0))
  /\ (forall st2 : State E,
        map Pattern (replacementRules st2) = map Pattern (replacementRules st) ->
        map Replacement (replacementRules st2)
        = map Replacement (replacementRules st) ->
        map Enabled (replacementRules st2) = map Enabled (replacementRules st) ->
        monitorInterval st2 = monitorInterval st ->
        saved_form st2 = saved_form st).
Proof.
  intros Hrange Hwhole Hvalid.
  destruct (save_then_load_rounds st st0 disk Hrange Hvalid) as [Hrules Hint].
  rewrite Hrules, Hint.
  destruct (reloaded_fields (replacementRules st)) as (Hp & Hr & He).
  split; [exact Hp |]. split; [exact Hr |]. split; [exact He |].
  split; [apply Milliseconds_exact; assumption |].
  split.
  - apply Forall_forall. intros r Hin.
    apply in_map_iff in Hin as (r0 & <- & Hin0).
    apply in_map_iff in Hin0 as (o & <- & _).
    apply compiled_is_derived.
  - intros st2 Hp2 Hr2 He2 Hd. unfold saved_form, MarshalIndent.
    cbn [Rules Interval].
    pose proof (same_fields_same_objects _ _ Hp2 Hr2 He2) as Hsame.
    unfold persisted in Hsame.
    rewrite <- !(map_map object_of_rule json.written_object), Hsame, Hd.
    reflexivity.
Qed.

(** C4, as the code has it.  A settings object that can be decoded sets the
    interval to its interval_ms (zero if the key is missing) times one
    millisecond, in 64-bit arithmetic; up to [max_ms] in magnitude that is
    the exact product, non-negative exactly when the persisted value is.
    No default is put in its place: the interval in force before the load
    survives only when the file is absent or cannot be decoded. *)
Theorem loadSettings_interval (d : json.SettingsObject) st :
  in_int64 (requested_ms d) = true ->
  monitorInterval (loadSettings (Some (json.Document d)) st)
  = wrap64 (requested_ms d * time.Millisecond)
  /\ (- max_ms <= requested_ms d <= max_ms ->
      monitorInterval (loadSettings (Some (json.Document d)) st)
      = requested_ms d * time.Millisecond
      /\ (0 <= monitorInterval (loadSettings (Some (json.Document d)) st)
          <-> 0 <= requested_ms d))
  /\ monitorInterval (loadSettings None st) = monitorInterval st
  /\ monitorInterval (loadSettings (Some json.Malformed) st) = monitorInterval st
  /\ monitorInterval (initial (E := E)) = 500 * time.Millisecond.
Proof.
  intros Hfit.
  assert (Hload : monitorInterval (loadSettings (Some (json.Document d)) st)
                  = wrap64 (requested_ms d * time.Millisecond)).
  { unfold loadSettings, Unmarshal. fold (requested_ms d). rewrite Hfit.
    reflexivity. }
  split; [exact Hload |].
  split; [| repeat split].
  intros Hsmall. rewrite Hload.
  rewrite wrap64_small.
  - split; [reflexivity |]. unfold time.Millisecond. lia.
  - unfold in_int64, int64_min, int64_max, time.Millisecond, max_ms in *.
    rewrite andb_true_iff, !Z.leb_le.
    change (2 ^ 63) with 9223372036854775808. lia.
Qed.

Lemma inactive_not_compiled o :
  regexp.Compile E (json.pattern o) = None ->
  Regexp (compile_rule (E := E) (rule_of_object o)) = None.
Proof.
  intros Hbad. unfold compile_rule. cbn [rule_of_object Pattern].
  destruct (String.eqb (json.pattern o) ""); [reflexivity |].
  rewrite Hbad. reflexivity.
Qed.

(** C5.  A settings object with one rule whose pattern does not compile
    and one valid enabled rule, in either order: load keeps both rules with
    their persisted fields, the rule with the bad pattern has no matcher, and
    [applyRules] gives what it gives when only the valid rule is loaded, namely
    the replacement of every match of the valid rule's pattern. *)
Theorem invalid_pattern_isolated
    (bad good : json.RuleObject) (i : option Z) (rs : list json.RuleObject)
    st (text : string) :
  regexp.Compile E (json.pattern bad) = None ->
  rs = [bad; good] \/ rs = [good; bad] ->
  in_int64 (match i with Some z => z | None => 0 end) = true ->
  let loaded :=
    loadSettings
      (Some (json.Document {| json.rules := rs; json.interval_ms := i |})) st in
  let alone :=
    loadSettings
      (Some (json.Document {| json.rules := [good]; json.interval_ms := i |})) st in
  persisted (replacementRules loaded) = rs
  /\ (forall r, In r (replacementRules loaded) ->
                object_of_rule r = bad -> Regexp r = None)
  /\ applyRules loaded text = applyRules alone text
  /\ (forall re,
        json.pattern good <> "" ->
        regexp.Compile E (json.pattern good) = Some re ->
        json.enabled good = true ->
        applyRules loaded text
        = regexp.ReplaceAllString E re text (json.replacement good)).
Proof.
  intros Hbad Hrs Hfit loaded alone.
  assert (Hloaded : replacementRules loaded = map compile_rule (map rule_of_object rs)).
  { subst loaded. unfold loadSettings, Unmarshal.
    cbn [json.interval_ms json.rules]. rewrite Hfit. reflexivity. }
  assert (Halone : replacementRules alone
                   = [compile_rule (rule_of_object good)]).
  { subst alone. unfold loadSettings, Unmarshal.
    cbn [json.interval_ms json.rules]. rewrite Hfit. reflexivity. }
  assert (Hnoop : forall t,
             applyRules_body t (compile_rule (E := E) (rule_of_object bad)) = t).
  { intros t. apply inactive_is_noop. unfold active.
    rewrite (inactive_not_compiled bad Hbad). apply andb_false_r. }
  assert (Happly : applyRules loaded text
                   = applyRules_body text
                       (compile_rule (E := E) (rule_of_object good))).
  { unfold applyRules. rewrite Hloaded.
    destruct Hrs as [-> | ->]; cbn [map applyRules_range]; rewrite Hnoop;
      reflexivity. }
  split; [rewrite Hloaded; apply persisted_compiled |].
  split.
  { intros r Hin Hobj. rewrite Hloaded in Hin.
    apply in_map_iff in Hin as (r0 & <- & Hin0).
    apply in_map_iff in Hin0 as (o & <- & _).
    rewrite object_of_compiled in Hobj. subst o.
    apply inactive_not_compiled. assumption. }
  split.
  { rewrite Happly. unfold applyRules. rewrite Halone. reflexivity. }
  intros re Hne Hgood Hen. rewrite Happly.
  unfold applyRules_body, compile_rule. cbn [rule_of_object Pattern].
  apply String.eqb_neq in Hne. rewrite Hne, Hgood. cbn.
  rewrite Hen. reflexivity.
Qed.

(** C10.  The Add handler either appends exactly one rule, which then has
    the non-empty pattern and replacement of the two entries, a matcher
    compiled from the pattern, and is enabled; or, when an entry is empty or
    the pattern does not compile, it leaves the rule list, the whole state,
    the settings file and the entries as they were. *)
Theorem addRule_all_or_nothing (written : bool) (ui : Entries) st (disk : Disk) :
  let '(ui', st', disk') := addRuleButton_tapped written ui st disk in
  (exists re,
     regexp.Compile E (rulePatternEntry ui) = Some re
     /\ rulePatternEntry ui <> ""
     /\ ruleReplacementEntry ui <> ""
     /\ replacementRules st'
        = (replacementRules st
           ++ [{| Pattern := rulePatternEntry ui;
                  Replacement := ruleReplacementEntry ui;
                  Enabled := true;
                  Regexp := Some re |}])%list
     /\ disk' = saveSettings written st' disk)
  \/ ((rulePatternEntry ui = ""
       \/ ruleReplacementEntry ui = ""
       \/ regexp.Compile E (rulePatternEntry ui) = None)
      /\ ui' = ui /\ st' = st /\ disk' = disk).
Proof.
  unfold addRuleButton_tapped.
  destruct (String.eqb_spec (rulePatternEntry ui) "") as [Hp | Hp]; cbn [orb].
  { right. auto. }
  destruct (String.eqb_spec (ruleReplacementEntry ui) "") as [Hr | Hr].
  { right. auto. }
  destruct (regexp.Compile E (rulePatternEntry ui)) as [re|] eqn:Hc.
  - left. exists re. repeat split; assumption.
  - right. auto.
Qed.

End StoreFacts.

Lemma settings_round_trip_witness :
  in_int64 (monitorInterval (Samples.st_with [Samples.foo_bar; Samples.unclosed])) = true
  /\ monitorInterval (Samples.st_with [Samples.foo_bar; Samples.unclosed])
       mod time.Millisecond = 0
  /\ forallb valid_rule
       (replacementRules (Samples.st_with [Samples.foo_bar; Samples.unclosed])) = true
  /\ map Replacement
       (replacementRules
          (loadSettings
             (saveSettings true (Samples.st_with [Samples.foo_bar; Samples.unclosed]) None)
             (initial (E := Literal.engine))))
     = map Replacement [Samples.foo_bar; Samples.unclosed]
  /\ monitorInterval
       (loadSettings
          (saveSettings true (Samples.st_with [Samples.foo_bar; Samples.unclosed]) None)
          (initial (E := Literal.engine)))
     = 500 * time.Millisecond.
Proof.
  split; [reflexivity |]. split; [reflexivity |]. split; [reflexivity |].
  destruct (settings_round_trip
              (Samples.st_with [Samples.foo_bar; Samples.unclosed])
              (initial (E := Literal.engine)) None
              eq_refl eq_refl eq_refl) as (_ & Hrepl & _ & Hint & _).
  split; [exact Hrepl | exact Hint].
Defined.

(** C3 as written fails in two ways.  On the interval: start-up with an
    interval_ms of 9223372036855 on disk leaves an interval of
    -9223372036854551616 ns (the product wrapped around); saving writes
    -9223372036854 ms, and loading that gives -9223372036854000000 ns.  On the
    strings: a replacement that is the single byte FF is written as the escape
    of U+FFFD and comes back as the three bytes EF BF BD. *)
Lemma round_trip_changes_interval :
  in_int64 (monitorInterval Samples.wide_state) = true
  /\ monitorInterval Samples.wide_state = -9223372036854551616
  /\ saveSettings true Samples.wide_state None
     = Some (json.Document
               {| json.rules := []; json.interval_ms := Some (-9223372036854) |})
  /\ monitorInterval (loadSettings (saveSettings true Samples.wide_state None)
          (initial (E := Literal.engine)))
     = -9223372036854000000
  /\ monitorInterval (loadSettings (saveSettings true Samples.wide_state None)
          (initial (E := Literal.engine)))
     <> monitorInterval Samples.wide_state
  /\ map Replacement
       (replacementRules
          (loadSettings (saveSettings true (Samples.st_with [Samples.raw_byte]) None)
             (initial (E := Literal.engine))))
     = [String "239" (String "191" (String "189" ""))]
  /\ map Replacement
       (replacementRules
          (loadSettings (saveSettings true (Samples.st_with [Samples.raw_byte]) None)
             (initial (E := Literal.engine))))
     <> map Replacement (replacementRules (Samples.st_with [Samples.raw_byte])).
Proof.
  repeat split; try reflexivity.
  - vm_compute. discriminate.
  - vm_compute. discriminate.
Qed.

Lemma loadSettings_interval_witness :
  in_int64 (requested_ms Samples.quarter_second) = true
  /\ monitorInterval
       (loadSettings (Some (json.Document Samples.quarter_second))
          (initial (E := Literal.engine)))
     = wrap64 (250 * time.Millisecond).
Proof.
  split; [reflexivity |].
  exact (proj1 (loadSettings_interval Samples.quarter_second
                  (initial (E := Literal.engine)) eq_refl)).
Defined.

(** C4 as written fails.  An interval_ms of -5 is loaded as -5 ms, a
    negative interval, and not replaced by the default of 500 ms; a missing
    key is loaded as 0. *)
Lemma load_keeps_non_positive_interval :
  monitorInterval
    (loadSettings (Some Samples.negative_interval) (initial (E := Literal.engine)))
  = -5 * time.Millisecond
  /\ monitorInterval
       (loadSettings (Some Samples.negative_interval) (initial (E := Literal.engine)))
     < 0
  /\ monitorInterval
       (loadSettings (Some Samples.negative_interval) (initial (E := Literal.engine)))
     <> 500 * time.Millisecond
  /\ monitorInterval
       (loadSettings
          (Some (json.Document {| json.rules := []; json.interval_ms := None |}))
          (initial (E := Literal.engine)))
     = 0.
Proof.
  repeat split; try reflexivity.
  vm_compute. discriminate.
Qed.

Lemma invalid_pattern_isolated_witness :
  regexp.Compile Literal.engine (json.pattern Samples.bad_object) = None
  /\ applyRules
       (loadSettings
          (Some (json.Document
                   {| json.rules := [Samples.bad_object; Samples.good_object];
                      json.interval_ms := Some 500 |}))
          (initial (E := Literal.engine)))
       "foofoo"
     = regexp.ReplaceAllString Literal.engine "foo" "foofoo" "bar".
Proof.
  split; [reflexivity |].
  destruct (invalid_pattern_isolated (E := Literal.engine)
              Samples.bad_object Samples.good_object (Some 500)
              [Samples.bad_object; Samples.good_object]
              (initial (E := Literal.engine)) "foofoo"
              eq_refl (or_introl eq_refl) eq_refl) as (_ & _ & _ & Hrepl).
  apply Hrepl.
  - discriminate.
  - reflexivity.
  - reflexivity.
Defined.

Example scenario3_invalid_pattern :
  applyRules (Samples.st_with [Samples.unclosed]) "a[b" = "a[b".
Proof. reflexivity. Qed.

Example addRule_appends :
  replacementRules
    (snd (fst (addRuleButton_tapped true
                 {| rulePatternEntry := "foo"; ruleReplacementEntry := "bar" |}
                 (initial (E := Literal.engine)) None)))
  = [Samples.foo_bar].
Proof. reflexivity. Qed.

Example addRule_rejects_bad_pattern :
  addRuleButton_tapped true
    {| rulePatternEntry := "["; ruleReplacementEntry := "x" |}
    (initial (E := Literal.engine)) None
  = ({| rulePatternEntry := "["; ruleReplacementEntry := "x" |}, initial, None).
Proof. reflexivity. Qed.

(** Two iterations in a row: "foofoo" is rewritten and written back once,
    and the text read next, "barbar", is left alone. *)
Example scenario1_two_iterations :
  monitorClipboard [Samples.clip "foofoo" 0; Samples.clip "barbar" 0]
    (Samples.st_with [Samples.foo_bar])
  = (set_lastText "barbar"
       (SetText "Successfully wrote to clipboard" (Samples.st_with [Samples.foo_bar])),
     [EvReadAll; EvApplyRules "foofoo"; EvWriteAll "barbar" None;
      EvSleep (500 * time.Millisecond);
      EvReadAll; EvSleep (500 * time.Millisecond)]).
Proof. reflexivity. Qed.

(** A disabled rule changes nothing, so nothing is written. *)
Example scenario2_disabled_rule :
  monitor_iteration (Samples.clip "foofoo" 0)
    (Samples.st_with [Samples.lit "foo" "bar" false])
  = (Samples.st_with [Samples.lit "foo" "bar" false],
     [EvReadAll; EvApplyRules "foofoo"; EvSleep (500 * time.Millisecond)]).
Proof. reflexivity. Qed.

(** ** Control surface: enable, delete, add *)

Section SurfaceFacts.

Context {E : regexp.Pkg}.

Implicit Types (st : State E) (r : Rule E) (rs rules : list (Rule E))
  (f : Rule E -> Rule E) (disk : Disk).

Lemma update_at_None id f rs :
  update_at id f rs = None <-> (List.length rs <= id)%nat.
Proof.
  revert id; induction rs as [|r rs IH]; intros id; cbn [update_at List.length].
  - split; [lia | reflexivity].
  - destruct id as [|k].
    + split; [discriminate | lia].
    + destruct (update_at k f rs) as [rs'|] eqn:Hk.
      * split; [discriminate |]. intros Hle.
        assert (Hnone : update_at k f rs = None) by (apply IH; lia).
        congruence.
      * split; [| reflexivity]. intros _.
        assert (List.length rs <= k)%nat by (apply IH; exact Hk). lia.
Qed.

Lemma update_at_Some id f rs rs' :
  update_at id f rs = Some rs' ->
  (id < List.length rs)%nat
  /\ List.length rs' = List.length rs
  /\ nth_error rs' id = option_map f (nth_error rs id)
  /\ (forall j, j <> id -> nth_error rs' j = nth_error rs j).
Proof.
  revert id rs'; induction rs as [|r rs IH]; intros id rs'; cbn [update_at].
  - discriminate.
  - destruct id as [|k].
    + intros Heq; inversion Heq; subst. cbn. repeat split; try lia.
      intros [|j] Hj; [congruence | reflexivity].
    + destruct (update_at k f rs) as [rs1|] eqn:Hk; [| discriminate].
      intros Heq; inversion Heq; subst.
      destruct (IH _ _ Hk) as (Hlt & Hlen & Hid & Hother).
      cbn. repeat split; try lia; try assumption.
      intros [|j] Hj; [reflexivity |]. cbn. apply Hother. lia.
Qed.

(** Ticking the check box of row [id] makes the enabled flag of that rule
    equal to the state of the box and changes the flag of no other rule, keeps
    the order, the patterns, the replacements and the matchers, and saves; a
    row beyond the end of the list panics. *)
Theorem ruleCheck_changed_spec (written : bool) (id : nat) (checked : bool) st disk :
  match ruleCheck_changed written id checked st disk with
  | None => (List.length (replacementRules st) <= id)%nat
  | Some (st', disk') =>
      (id < List.length (replacementRules st))%nat
      /\ List.length (replacementRules st') = List.length (replacementRules st)
      /\ (exists r,
            nth_error (replacementRules st) id = Some r
            /\ nth_error (replacementRules st') id
               = Some {| Pattern := Pattern r;
                         Replacement := Replacement r;
                         Enabled := checked;
                         Regexp := Regexp r |})
      /\ map Enabled (replacementRules st')
         = (firstn id (map Enabled (replacementRules st))
              ++ checked :: skipn (S id) (map Enabled (replacementRules st)))%list
      /\ (forall j, j <> id ->
            nth_error (replacementRules st') j = nth_error (replacementRules st) j)
      /\ map Pattern (replacementRules st') = map Pattern (replacementRules st)
      /\ map Replacement (replacementRules st') = map Replacement (replacementRules st)
      /\ map Regexp (replacementRules st') = map Regexp (replacementRules st)
      /\ same_core (set_rules (replacementRules st) st') st
      /\ disk' = saveSettings written st' disk
  end.
Proof.
  unfold ruleCheck_changed.
  destruct (update_at id (set_enabled checked) (replacementRules st)) as [rs'|] eqn:Hup.
  - destruct (update_at_Some _ _ _ _ Hup) as (Hlt & Hlen & Hid & Hother).
    cbn [set_rules replacementRules].
    assert (Hmaps : forall (A : Type) (g : Rule E -> A),
               (forall r, g (set_enabled checked r) = g r) ->
               map g rs' = map g (replacementRules st)).
    { intros A g Hg. clear Hlt Hlen Hid Hother. revert id rs' Hup.
      induction (replacementRules st) as [|r rs IH]; intros id rs' Hup;
        cbn [update_at] in Hup; [discriminate |].
      destruct id as [|k].
      - inversion Hup; subst. cbn. rewrite Hg. reflexivity.
      - destruct (update_at k (set_enabled checked) rs) as [rs1|] eqn:Hk;
          [| discriminate].
        inversion Hup; subst. cbn. rewrite (IH _ _ Hk). reflexivity. }
    assert (Hflags :
      map Enabled rs'
      = (firstn id (map Enabled (replacementRules st))
           ++ checked :: skipn (S id) (map Enabled (replacementRules st)))%list).
    { clear Hlt Hlen Hid Hother Hmaps. revert id rs' Hup.
      induction (replacementRules st) as [|r rs IH]; intros id rs' Hup;
        cbn [update_at] in Hup; [discriminate |].
      destruct id as [|k].
      - inversion Hup; subst. reflexivity.
      - destruct (update_at k (set_enabled checked) rs) as [rs1|] eqn:Hk;
          [| discriminate].
        inversion Hup; subst. cbn [map firstn skipn app].
        rewrite (IH _ _ Hk). reflexivity. }
    assert (Hrow : exists r,
               nth_error (replacementRules st) id = Some r
               /\ nth_error rs' id
                  = Some {| Pattern := Pattern r;
                            Replacement := Replacement r;
                            Enabled := checked;
                            Regexp := Regexp r |}).
    { destruct (nth_error (replacementRules st) id) as [r|] eqn:Hnth.
      - exists r. split; [reflexivity | exact Hid].
      - apply nth_error_None in Hnth. lia. }
    repeat split; auto.
  - apply update_at_None in Hup. exact Hup.
Qed.

(** Deleting row [id] removes that rule and no other: the rules before it
    keep their index, the rules behind it move up by one, and the result is
    saved; a row beyond the end of the list panics. *)
Theorem deleteButton_tapped_spec (written : bool) (id : nat) st disk :
  match deleteButton_tapped written id st disk with
  | None => (List.length (replacementRules st) <= id)%nat
  | Some (st', disk') =>
      (id < List.length (replacementRules st))%nat
      /\ S (List.length (replacementRules st')) = List.length (replacementRules st)
      /\ (forall j, (j < id)%nat ->
            nth_error (replacementRules st') j = nth_error (replacementRules st) j)
      /\ (forall j, (id <= j)%nat ->
            nth_error (replacementRules st') j = nth_error (replacementRules st) (S j))
      /\ same_core (set_rules (replacementRules st) st') st
      /\ disk' = saveSettings written st' disk
  end.
Proof.
  unfold deleteButton_tapped.
  destruct (Nat.leb_spec (S id) (List.length (replacementRules st))) as [Hin | Hout].
  - cbn [set_rules replacementRules].
    assert (Hfirst : List.length (firstn id (replacementRules st)) = id).
    { rewrite length_firstn. lia. }
    split; [lia |]. split.
    { rewrite length_app, Hfirst, length_skipn. lia. }
    split.
    { intros j Hj. rewrite nth_error_app1 by lia.
      rewrite nth_error_firstn.
      destruct (Nat.ltb_spec j id); [reflexivity | lia]. }
    split.
    { intros j Hj. rewrite nth_error_app2 by lia.
      rewrite Hfirst, nth_error_skipn. f_equal. lia. }
    repeat split.
  - lia.
Qed.

Lemma disabled_like_deleted id rs rs' (text : string) :
  update_at id (set_enabled false) rs = Some rs' ->
  applyRules_range rs' text
  = applyRules_range (firstn id rs ++ skipn (S id) rs) text.
Proof.
  revert id rs' text; induction rs as [|r rs IH]; intros id rs' text;
    cbn [update_at]; [discriminate |].
  destruct id as [|k].
  - intros Heq; inversion Heq; subst. reflexivity.
  - destruct (update_at k (set_enabled false) rs) as [rs1|] eqn:Hk; [| discriminate].
    intros Heq; inversion Heq; subst.
    cbn [firstn skipn app applyRules_range]. apply IH. assumption.
Qed.

(** Switching a rule off has the same effect on the transformation as
    deleting it. *)
Theorem disabling_is_deleting (w1 w2 : bool) (id : nat) st disk
    (st1 st2 : State E) (disk1 disk2 : Disk) :
  ruleCheck_changed w1 id false st disk = Some (st1, disk1) ->
  deleteButton_tapped w2 id st disk = Some (st2, disk2) ->
  forall text, applyRules st1 text = applyRules st2 text.
Proof.
  unfold ruleCheck_changed, deleteButton_tapped.
  destruct (update_at id (set_enabled false) (replacementRules st)) as [rs'|] eqn:Hup;
    [| discriminate].
  destruct (S id <=? List.length (replacementRules st))%nat; [| discriminate].
  intros H1 H2 text. inversion H1; subst. inversion H2; subst.
  unfold applyRules. cbn [set_rules replacementRules].
  apply disabled_like_deleted. assumption.
Qed.

End SurfaceFacts.

Lemma disabling_is_deleting_witness :
  ruleCheck_changed true 0 false (Samples.st_with [Samples.a_aa; Samples.foo_bar]) None
  = Some (Samples.st_with [Samples.lit "a" "aa" false; Samples.foo_bar],
          saveSettings true
            (Samples.st_with [Samples.lit "a" "aa" false; Samples.foo_bar]) None)
  /\ deleteButton_tapped true 0 (Samples.st_with [Samples.a_aa; Samples.foo_bar]) None
     = Some (Samples.st_with [Samples.foo_bar],
             saveSettings true (Samples.st_with [Samples.foo_bar]) None)
  /\ applyRules (Samples.st_with [Samples.lit "a" "aa" false; Samples.foo_bar]) "a foo"
     = applyRules (Samples.st_with [Samples.foo_bar]) "a foo".
Proof.
  split; [reflexivity |]. split; [reflexivity |].
  apply (disabling_is_deleting true true 0
           (Samples.st_with [Samples.a_aa; Samples.foo_bar]) None
           (Samples.st_with [Samples.lit "a" "aa" false; Samples.foo_bar])
           (Samples.st_with [Samples.foo_bar])
           (saveSettings true
              (Samples.st_with [Samples.lit "a" "aa" false; Samples.foo_bar]) None)
           (saveSettings true (Samples.st_with [Samples.foo_bar]) None)
           eq_refl eq_refl "a foo").
Defined.

Section SurfaceComposition.

Context {E : regexp.Pkg}.

Implicit Types (st : State E) (r : Rule E) (rs rules : list (Rule E)) (disk : Disk).

Lemma set_rules_same st : set_rules (replacementRules st) st = st.
Proof. destruct st; reflexivity. Qed.

Lemma replacementRules_set_rules rs st : replacementRules (set_rules rs st) = rs.
Proof. reflexivity. Qed.

Lemma set_rules_twice rs1 rs2 st : set_rules rs2 (set_rules rs1 st) = set_rules rs2 st.
Proof. reflexivity. Qed.

Lemma set_enabled_current r : set_enabled (Enabled r) r = r.
Proof. destruct r; reflexivity. Qed.

Lemma update_at_again id (b1 b2 : bool) rs rs1 :
  update_at id (set_enabled b1) rs = Some rs1 ->
  update_at id (set_enabled b2) rs1 = update_at id (set_enabled b2) rs.
Proof.
  revert id rs1; induction rs as [|r rs IH]; intros id rs1; cbn [update_at];
    [discriminate |].
  destruct id as [|k].
  - intros Heq; inversion Heq; subst. reflexivity.
  - destruct (update_at k (set_enabled b1) rs) as [rs'|] eqn:Hk; [| discriminate].
    intros Heq; inversion Heq; subst. cbn [update_at].
    rewrite (IH _ _ Hk). reflexivity.
Qed.

Lemma update_at_current id rs r :
  nth_error rs id = Some r ->
  update_at id (set_enabled (Enabled r)) rs = Some rs.
Proof.
  revert id; induction rs as [|r0 rs IH]; intros id.
  - destruct id; discriminate.
  - destruct id as [|k]; cbn [nth_error update_at].
    + intros Heq; inversion Heq; subst. rewrite set_enabled_current. reflexivity.
    + intros Hk. rewrite (IH _ Hk). reflexivity.
Qed.

(** The rule made by the Add button is applied last, to what the rules
    already in the list produce; both entries are cleared. *)
Theorem added_rule_applies_last (written : bool) (ui : Entries) st disk
    (re : regexp.Regexp E) :
  rulePatternEntry ui <> "" ->
  ruleReplacementEntry ui <> "" ->
  regexp.Compile E (rulePatternEntry ui) = Some re ->
  fst (fst (addRuleButton_tapped written ui st disk))
  = {| rulePatternEntry := ""; ruleReplacementEntry := "" |}
  /\ forall text,
       applyRules (snd (fst (addRuleButton_tapped written ui st disk))) text
       = regexp.ReplaceAllString E re (applyRules st text) (ruleReplacementEntry ui).
Proof.
  intros Hp Hr Hc. unfold addRuleButton_tapped.
  apply String.eqb_neq in Hp, Hr. rewrite Hp, Hr, Hc. cbn [orb fst snd].
  split; [reflexivity |].
  intros text. unfold applyRules. cbn [set_rules replacementRules].
  rewrite applyRules_range_app. reflexivity.
Qed.

(** Adding a rule and then deleting the last row gives back the state there
    was before, and the file is saved from it. *)
Theorem add_then_delete_restores (w1 w2 : bool) (ui : Entries) st disk
    (re : regexp.Regexp E) :
  rulePatternEntry ui <> "" ->
  ruleReplacementEntry ui <> "" ->
  regexp.Compile E (rulePatternEntry ui) = Some re ->
  deleteButton_tapped w2 (List.length (replacementRules st))
    (snd (fst (addRuleButton_tapped w1 ui st disk)))
    (snd (addRuleButton_tapped w1 ui st disk))
  = Some (st, saveSettings w2 st (snd (addRuleButton_tapped w1 ui st disk))).
Proof.
  intros Hp Hr Hc. unfold addRuleButton_tapped.
  apply String.eqb_neq in Hp, Hr. rewrite Hp, Hr, Hc. cbn [orb fst snd].
  unfold deleteButton_tapped. rewrite !replacementRules_set_rules.
  rewrite last_length, Nat.leb_refl.
  rewrite firstn_app, Nat.sub_diag, firstn_all. cbn [firstn].
  rewrite skipn_all2 by (rewrite last_length; lia).
  rewrite !app_nil_r, set_rules_twice, set_rules_same.
  reflexivity.
Qed.

(** Of two changes of the same check box the last one counts, and a change
    to the value the rule already has leaves the rule list as it is. *)
Theorem last_check_change_wins (w1 w2 : bool) (id : nat) (b1 b2 : bool) st disk
    (st1 : State E) (disk1 : Disk) :
  ruleCheck_changed w1 id b1 st disk = Some (st1, disk1) ->
  exists st2 disk2,
    ruleCheck_changed w2 id b2 st1 disk1 = Some (st2, disk2)
    /\ (forall st3 disk3,
          ruleCheck_changed w2 id b2 st disk = Some (st3, disk3) -> st2 = st3)
    /\ (forall r, nth_error (replacementRules st) id = Some r ->
                  Enabled r = b2 -> st2 = st).
Proof.
  unfold ruleCheck_changed.
  destruct (update_at id (set_enabled b1) (replacementRules st)) as [rs1|] eqn:H1;
    [| discriminate].
  intros Heq; inversion Heq; subst. cbn [set_rules replacementRules].
  rewrite (update_at_again _ _ b2 _ _ H1).
  destruct (update_at_Some _ _ _ _ H1) as (Hlt & _).
  destruct (update_at id (set_enabled b2) (replacementRules st)) as [rs2|] eqn:H2.
  2:{ apply update_at_None in H2. lia. }
  eexists. eexists. split; [reflexivity |]. split.
  - intros st3 disk3 H3. inversion H3; subst. reflexivity.
  - intros r Hnth Hen. subst b2. rewrite (update_at_current _ _ _ Hnth) in H2.
    inversion H2; subst. destruct st; reflexivity.
Qed.

End SurfaceComposition.

Lemma added_rule_applies_last_witness :
  rulePatternEntry {| rulePatternEntry := "foo"; ruleReplacementEntry := "bar" |} <> ""
  /\ regexp.Compile Literal.engine "foo" = Some "foo"
  /\ applyRules
       (snd (fst (addRuleButton_tapped true
                    {| rulePatternEntry := "foo"; ruleReplacementEntry := "bar" |}
                    (Samples.st_with [Samples.a_aa]) None)))
       "a foo"
     = regexp.ReplaceAllString Literal.engine "foo"
         (applyRules (Samples.st_with [Samples.a_aa]) "a foo") "bar".
Proof.
  split; [discriminate |]. split; [reflexivity |].
  apply (added_rule_applies_last (E := Literal.engine) true
           {| rulePatternEntry := "foo"; ruleReplacementEntry := "bar" |}
           (Samples.st_with [Samples.a_aa]) None "foo");
    [discriminate | discriminate | reflexivity].
Defined.

Lemma add_then_delete_restores_witness :
  regexp.Compile Literal.engine "foo" = Some "foo"
  /\ deleteButton_tapped true 1
       (snd (fst (addRuleButton_tapped true
                    {| rulePatternEntry := "foo"; ruleReplacementEntry := "bar" |}
                    (Samples.st_with [Samples.a_aa]) None)))
       (snd (addRuleButton_tapped true
               {| rulePatternEntry := "foo"; ruleReplacementEntry := "bar" |}
               (Samples.st_with [Samples.a_aa]) None))
     = Some (Samples.st_with [Samples.a_aa],
             Some (saved_form (Samples.st_with [Samples.a_aa]))).
Proof.
  split; [reflexivity |].
  apply (add_then_delete_restores (E := Literal.engine) true true
           {| rulePatternEntry := "foo"; ruleReplacementEntry := "bar" |}
           (Samples.st_with [Samples.a_aa]) None "foo");
    [discriminate | discriminate | reflexivity].
Defined.

Lemma last_check_change_wins_witness :
  ruleCheck_changed true 0 false (Samples.st_with [Samples.foo_bar]) None
  = Some (Samples.st_with [Samples.lit "foo" "bar" false],
          Some (saved_form (Samples.st_with [Samples.lit "foo" "bar" false])))
  /\ exists st2 disk2,
       ruleCheck_changed true 0 true
         (Samples.st_with [Samples.lit "foo" "bar" false])
         (Some (saved_form (Samples.st_with [Samples.lit "foo" "bar" false])))
       = Some (st2, disk2)
       /\ st2 = Samples.st_with [Samples.foo_bar].
Proof.
  split; [reflexivity |].
  destruct (last_check_change_wins true true 0 false true
              (Samples.st_with [Samples.foo_bar]) None
              (Samples.st_with [Samples.lit "foo" "bar" false])
              (Some (saved_form (Samples.st_with [Samples.lit "foo" "bar" false])))
              eq_refl) as (st2 & disk2 & Hrun & _ & Hback).
  exists st2, disk2. split; [exact Hrun |].
  apply (Hback Samples.foo_bar); reflexivity.
Defined.

(** ** Rule store: invariants, restart, start-up *)

Lemma wrap64_in_int64 (z : Z) : in_int64 (wrap64 z) = true.
Proof.
  unfold in_int64, int64_min, int64_max, wrap64.
  change (2 ^ 63) with 9223372036854775808.
  change (2 ^ 64) with 18446744073709551616.
  rewrite andb_true_iff, !Z.leb_le.
  pose proof (Z.mod_pos_bound (z + 9223372036854775808) 18446744073709551616).
  lia.
Qed.

Lemma Milliseconds_of_product (i : Z) :
  time.Milliseconds (i * time.Millisecond) = i.
Proof.
  unfold time.Milliseconds, time.Millisecond. apply Z.quot_mul. lia.
Qed.

Section StateInvariants.

Context {E : regexp.Pkg}.

Implicit Types (st : State E) (r : Rule E) (rs rules : list (Rule E)) (disk : Disk).

Lemma derived_restored r :
  derived_matcher r -> compile_rule (rule_of_object (object_of_rule r)) = r.
Proof.
  unfold derived_matcher, compile_rule.
  cbn [rule_of_object object_of_rule Pattern json.pattern json.replacement
         json.enabled Replacement Enabled].
  destruct r as [p repl en m]. cbn [Pattern Replacement Enabled Regexp].
  destruct (String.eqb p ""); intros ->; [reflexivity |].
  destruct (regexp.Compile E p); reflexivity.
Qed.

Lemma loadSettings_sound disk st : sound_state st -> sound_state (loadSettings disk st).
Proof.
  intros [Hrules Hint]. unfold loadSettings.
  destruct disk as [file|].
  - destruct (Unmarshal file) as [s|] eqn:Hu; [| split; assumption].
    split; cbn [set_interval set_rules replacementRules monitorInterval].
    + apply Forall_forall. intros r Hin.
      apply in_map_iff in Hin as (r0 & <- & Hin0).
      destruct file as [|d]; [discriminate |].
      unfold Unmarshal in Hu. clear Hint.
      destruct (in_int64 _); [| discriminate].
      inversion Hu; subst; clear Hu.
      cbn [Rules] in Hin0. apply in_map_iff in Hin0 as (o & <- & _).
      apply compiled_is_derived.
    + apply wrap64_in_int64.
  - split; [constructor | assumption].
Qed.

Lemma initial_sound : sound_state (initial (E := E)).
Proof. split; [constructor | reflexivity]. Qed.

Lemma update_at_Forall (P : Rule E -> Prop) id (f : Rule E -> Rule E) rs rs' :
  (forall r, P r -> P (f r)) ->
  Forall P rs -> update_at id f rs = Some rs' -> Forall P rs'.
Proof.
  intros Hf. revert id rs'; induction rs as [|r rs IH]; intros id rs' Hall;
    cbn [update_at]; [discriminate |].
  inversion Hall; subst.
  destruct id as [|k].
  - intros Heq; inversion Heq; subst. constructor; auto.
  - destruct (update_at k f rs) as [rs1|] eqn:Hk; [| discriminate].
    intros Heq; inversion Heq; subst. constructor; eauto.
Qed.

Lemma Forall_firstn_skipn (P : Rule E -> Prop) id rs :
  Forall P rs -> Forall P (firstn id rs ++ skipn (S id) rs).
Proof.
  revert id; induction rs as [|r rs IH]; intros id Hall.
  - destruct id; constructor.
  - inversion Hall; subst. destruct id as [|k]; cbn [firstn skipn app].
    + assumption.
    + constructor; [assumption |]. apply IH. assumption.
Qed.

Lemma monitor_iteration_core (host : Host) st :
  replacementRules (fst (monitor_iteration host st)) = replacementRules st
  /\ monitoring (fst (monitor_iteration host st)) = monitoring st
  /\ monitorInterval (fst (monitor_iteration host st)) = monitorInterval st.
Proof.
  unfold monitor_iteration.
  destruct (monitoring st) eqn:Hmon; cbn [negb]; [| cbn; auto].
  destruct (ReadAll host) as [currentText [msg|]].
  { destruct (String.eqb msg _); cbn; auto. }
  destruct (isTextContent currentText); cbn [negb]; [| cbn; auto].
  destruct (isTextTooLarge currentText); [cbn; auto |].
  destruct (String.eqb currentText (lastText st)); cbn [negb]; [cbn; auto |].
  destruct (String.eqb (applyRules st currentText) currentText); cbn [negb];
    [cbn; auto |].
  destruct (writeToClipboard host (applyRules st currentText)) as [[e|] wevs];
    cbn; auto.
Qed.

Lemma addRule_step (ui : Entries) (w : bool) st disk :
  (exists re,
     regexp.Compile E (rulePatternEntry ui) = Some re
     /\ rulePatternEntry ui <> ""
     /\ replacementRules (snd (fst (addRuleButton_tapped w ui st disk)))
        = (replacementRules st
           ++ [{| Pattern := rulePatternEntry ui;
                  Replacement := ruleReplacementEntry ui;
                  Enabled := true;
                  Regexp := Some re |}])%list
     /\ monitorInterval (snd (fst (addRuleButton_tapped w ui st disk)))
        = monitorInterval st)
  \/ snd (fst (addRuleButton_tapped w ui st disk)) = st.
Proof.
  unfold addRuleButton_tapped.
  destruct (String.eqb_spec (rulePatternEntry ui) "") as [Hp | Hp]; cbn [orb];
    [right; reflexivity |].
  destruct (String.eqb (ruleReplacementEntry ui) ""); [right; reflexivity |].
  destruct (regexp.Compile E (rulePatternEntry ui)) as [re|] eqn:Hc;
    [| right; reflexivity].
  left. exists re. repeat split; assumption.
Qed.

Lemma act_sound (a : Action) st disk (st' : State E) (disk' : Disk) :
  sound_state st -> act a (st, disk) = Some (st', disk') -> sound_state st'.
Proof.
  intros [Hrules Hint]. destruct a as [ui w | id b w | id w | | | host];
    cbn [act].
  - pose proof (addRule_step ui w st disk) as Hadd.
    destruct (addRuleButton_tapped w ui st disk) as [[ui1 st1] disk1].
    cbn [fst snd] in Hadd.
    intros Heq; inversion Heq; subst.
    destruct Hadd as [(re & Hc & Hp & Hnew & Hkeep) | Hsame].
    + split.
      * rewrite Hnew. apply Forall_app. split; [assumption |].
        constructor; [| constructor].
        unfold derived_matcher. cbn [Pattern Regexp].
        apply String.eqb_neq in Hp. rewrite Hp. congruence.
      * rewrite Hkeep. assumption.
    + subst. split; assumption.
  - unfold ruleCheck_changed.
    destruct (update_at id (set_enabled b) (replacementRules st)) as [rs'|] eqn:Hup;
      [| discriminate].
    intros Heq; inversion Heq; subst. split; [| assumption].
    cbn [set_rules replacementRules].
    eapply update_at_Forall; [| exact Hrules | exact Hup].
    intros r Hr. exact Hr.
  - unfold deleteButton_tapped.
    destruct (S id <=? List.length (replacementRules st))%nat; [| discriminate].
    intros Heq; inversion Heq; subst. split; [| assumption].
    cbn [set_rules replacementRules]. apply Forall_firstn_skipn. assumption.
  - intros Heq; inversion Heq; subst. split; assumption.
  - intros Heq; inversion Heq; subst. split; assumption.
  - intros Heq; inversion Heq; subst.
    destruct (monitor_iteration_core host st) as (Hr & _ & Hi).
    split; [rewrite Hr | rewrite Hi]; assumption.
Qed.

End StateInvariants.

Section RunFacts.

Context {E : regexp.Pkg}.

Implicit Types (st : State E) (r : Rule E) (disk : Disk).

Lemma run_sound (actions : list Action) st disk (st' : State E) (disk' : Disk) :
  sound_state st -> run actions (st, disk) = Some (st', disk') -> sound_state st'.
Proof.
  revert st disk; induction actions as [|a later IH]; intros st disk Hs; cbn [run].
  - intros Heq; inversion Heq; subst. assumption.
  - destruct (act a (st, disk)) as [[st1 disk1]|] eqn:Ha; [| discriminate].
    apply IH. eapply act_sound; eassumption.
Qed.

(** Whatever the settings file holds at start-up and whatever is done
    afterwards, the matcher of every rule is the one derived from its pattern
    and the interval is a 64-bit value; so a rule that takes part in the
    transformation has a non-empty pattern, and its matcher is the compiled
    pattern. *)
Theorem reachable_rules_have_derived_matchers
    (disk : Disk) (actions : list Action) st (disk' : Disk) :
  run actions (main_start disk, disk) = Some (st, disk') ->
  sound_state st
  /\ forall r, In r (replacementRules st) -> active r = true ->
       Pattern r <> "" /\ Regexp r = regexp.Compile E (Pattern r).
Proof.
  intros Hrun.
  assert (Hs : sound_state st).
  { eapply run_sound; [| exact Hrun].
    apply loadSettings_sound, initial_sound. }
  split; [exact Hs |].
  destruct Hs as [Hrules _]. rewrite Forall_forall in Hrules.
  intros r Hin Hact. specialize (Hrules r Hin).
  unfold derived_matcher in Hrules. unfold active in Hact.
  destruct (String.eqb_spec (Pattern r) "") as [Hp | Hp].
  - rewrite Hrules, andb_false_r in Hact. discriminate.
  - split; assumption.
Qed.

Lemma saved_rules_restored st (st0 : State E) :
  sound_state st ->
  forallb valid_rule (replacementRules st) = true ->
  replacementRules (loadSettings (Some (saved_form st)) st0) = replacementRules st.
Proof.
  intros [Hrules Hint] Hvalid. rewrite (loadSettings_saved st st0 Hint).
  cbn [set_interval set_rules replacementRules].
  rewrite (valid_objects_written _ Hvalid). unfold persisted.
  clear Hvalid. induction Hrules as [|r rs Hr _ IH]; cbn [map].
  - reflexivity.
  - rewrite IH, (derived_restored r Hr). reflexivity.
Qed.

(** A restart after a save finds the rule list as it was, matchers included,
    and so transforms every text in the same way, provided the pattern and
    replacement strings of the rules are valid UTF-8 (other bytes are replaced
    when the file is written). *)
Theorem restart_restores_rules
    (disk : Disk) (actions : list Action) st (disk' : Disk) :
  run actions (main_start disk, disk) = Some (st, disk') ->
  disk' = Some (saved_form st) ->
  forallb valid_rule (replacementRules st) = true ->
  replacementRules (main_start (E := E) disk') = replacementRules st
  /\ forall text, applyRules (main_start (E := E) disk') text = applyRules st text.
Proof.
  intros Hrun -> Hvalid.
  assert (Hs : sound_state st).
  { eapply run_sound; [| exact Hrun].
    apply loadSettings_sound, initial_sound. }
  assert (Hsame : replacementRules (main_start (E := E) (Some (saved_form st)))
                  = replacementRules st).
  { unfold main_start. apply saved_rules_restored; assumption. }
  split; [exact Hsame |].
  intros text. unfold applyRules. rewrite Hsame. reflexivity.
Qed.

Lemma valid_object_written (os : list json.RuleObject) :
  forallb json.valid_object os = true -> map json.written_object os = os.
Proof.
  induction os as [|o os IH]; cbn [forallb map]; [reflexivity |].
  rewrite andb_true_iff. unfold json.valid_object at 1. rewrite andb_true_iff.
  intros [[Hp Hr] Hrest]. rewrite (IH Hrest).
  unfold json.written_object.
  rewrite (valid_written _ Hp), (valid_written _ Hr). destruct o; reflexivity.
Qed.

(** Loading a settings object and saving at once writes the object back: the
    rules in order, each string as the encoder writes it, and the interval, a
    missing interval key being written as 0.  The strings of an object that a
    decoder has produced are valid UTF-8; for them the encoder writes what it
    is given, and the saved object is the loaded one. *)
Theorem load_then_save (d : json.SettingsObject) st :
  - max_ms <= requested_ms d <= max_ms ->
  saved_form (loadSettings (Some (json.Document d)) st)
  = json.Document
      {| json.rules := map json.written_object (json.rules d);
         json.interval_ms := Some (requested_ms d) |}
  /\ (forallb json.valid_object (json.rules d) = true ->
      saved_form (loadSettings (Some (json.Document d)) st)
      = json.Document
          {| json.rules := json.rules d;
             json.interval_ms := Some (requested_ms d) |}).
Proof.
  intros Hsmall.
  assert (Hfit : in_int64 (requested_ms d) = true).
  { unfold in_int64, int64_min, int64_max, max_ms in *.
    rewrite andb_true_iff, !Z.leb_le.
    change (2 ^ 63) with 9223372036854775808. lia. }
  assert (Hprod : in_int64 (requested_ms d * time.Millisecond) = true).
  { unfold in_int64, int64_min, int64_max, max_ms, time.Millisecond in *.
    rewrite andb_true_iff, !Z.leb_le.
    change (2 ^ 63) with 9223372036854775808. lia. }
  assert (Hsaved :
    saved_form (loadSettings (Some (json.Document d)) st)
    = json.Document
        {| json.rules := map json.written_object (json.rules d);
           json.interval_ms := Some (requested_ms d) |}).
  { unfold loadSettings, Unmarshal. fold (requested_ms d). rewrite Hfit.
    unfold saved_form, MarshalIndent.
    cbn [set_interval set_rules replacementRules monitorInterval Rules Interval].
    rewrite (wrap64_small _ Hprod), Milliseconds_of_product.
    rewrite <- (map_map object_of_rule json.written_object).
    fold (persisted (map (compile_rule (E := E)) (map rule_of_object (json.rules d)))).
    rewrite persisted_compiled. reflexivity. }
  split; [exact Hsaved |].
  intros Hvalid. rewrite Hsaved, (valid_object_written _ Hvalid). reflexivity.
Qed.

(** When the settings file is missing, is no settings document, or carries
    an interval_ms outside the range of [int], the program starts without
    rules and with the interval of 500 ms, and transforms nothing. *)
Theorem startup_without_settings (disk : Disk) :
  (disk = None
   \/ disk = Some json.Malformed
   \/ exists d, disk = Some (json.Document d) /\ in_int64 (requested_ms d) = false) ->
  replacementRules (main_start (E := E) disk) = []
  /\ monitorInterval (main_start (E := E) disk) = 500 * time.Millisecond
  /\ monitoring (main_start (E := E) disk) = false
  /\ forall text, applyRules (main_start (E := E) disk) text = text.
Proof.
  intros [-> | [-> | (d & -> & Hbig)]]; unfold main_start, loadSettings, Unmarshal.
  - repeat split.
  - repeat split.
  - fold (requested_ms d). rewrite Hbig. repeat split.
Qed.

End RunFacts.

Lemma reachable_rules_have_derived_matchers_witness :
  exists st disk',
    run Sessions.session (main_start (E := Literal.engine) None, None)
    = Some (st, disk')
    /\ sound_state st.
Proof.
  eexists. eexists. split; [reflexivity |].
  exact (proj1 (reachable_rules_have_derived_matchers (E := Literal.engine)
                  None Sessions.session _ _ eq_refl)).
Defined.

Lemma restart_restores_rules_witness :
  exists st disk',
    run Sessions.session (main_start (E := Literal.engine) None, None)
    = Some (st, disk')
    /\ disk' = Some (saved_form st)
    /\ forallb valid_rule (replacementRules st) = true
    /\ replacementRules (main_start (E := Literal.engine) disk')
       = replacementRules st.
Proof.
  eexists. eexists. split; [reflexivity |]. split; [reflexivity |].
  split; [reflexivity |].
  exact (proj1 (restart_restores_rules (E := Literal.engine)
                  None Sessions.session _ _ eq_refl eq_refl eq_refl)).
Defined.

Lemma load_then_save_witness :
  - max_ms <= requested_ms Samples.quarter_second <= max_ms
  /\ forallb json.valid_object (json.rules Samples.quarter_second) = true
  /\ saved_form (loadSettings (Some (json.Document Samples.quarter_second))
                   (initial (E := Literal.engine)))
     = json.Document Samples.quarter_second.
Proof.
  assert (Hsmall : - max_ms <= requested_ms Samples.quarter_second <= max_ms)
    by (vm_compute; split; discriminate).
  split; [exact Hsmall |]. split; [reflexivity |].
  exact (proj2 (load_then_save (E := Literal.engine) Samples.quarter_second
                  initial Hsmall) eq_refl).
Defined.

Lemma startup_without_settings_witness :
  in_int64 (requested_ms Sessions.huge_interval) = false
  /\ replacementRules
       (main_start (E := Literal.engine) (Some (json.Document Sessions.huge_interval)))
     = [].
Proof.
  split; [reflexivity |].
  apply (startup_without_settings (E := Literal.engine)
           (Some (json.Document Sessions.huge_interval))).
  right. right. exists Sessions.huge_interval. split; reflexivity.
Defined.

(** ** Monitor loop: whole runs *)

Section RunOfLoop.

Context {E : regexp.Pkg}.

Implicit Types (st : State E) (host : Host) (hosts : list Host) (evs : list Event).

Lemma idle_loop hosts st :
  monitoring st = false ->
  monitorClipboard hosts st
  = (st, repeat (EvSleep (200 * time.Millisecond)) (List.length hosts)).
Proof.
  intros Hoff. induction hosts as [|host later IH]; cbn [monitorClipboard].
  - reflexivity.
  - unfold monitor_iteration. rewrite Hoff. cbn [negb]. rewrite IH. reflexivity.
Qed.

Lemma loadSettings_keeps_monitoring (disk : Disk) st :
  monitoring (loadSettings disk st) = monitoring st.
Proof.
  unfold loadSettings. destruct disk as [file|]; [| reflexivity].
  destruct (Unmarshal file); reflexivity.
Qed.

(** Until Start is tapped, and again after Stop, the loop touches neither the
    clipboard nor the state: each iteration is a pause of 200 ms, whatever the
    settings file held and however long the interval is. *)
Theorem no_clipboard_access_while_stopped
    (disk : Disk) (windowLabel : string) hosts st :
  monitorClipboard hosts (main_start (E := E) disk)
  = (main_start disk, repeat (EvSleep (200 * time.Millisecond)) (List.length hosts))
  /\ monitorClipboard hosts (snd (stopButton_tapped windowLabel st))
     = (snd (stopButton_tapped windowLabel st),
        repeat (EvSleep (200 * time.Millisecond)) (List.length hosts)).
Proof.
  split; apply idle_loop.
  - unfold main_start. rewrite loadSettings_keeps_monitoring. reflexivity.
  - reflexivity.
Qed.

(** The loop changes the status label and [lastText] only: however long it
    runs, the rule list, the monitoring flag and the interval are those it
    started with. *)
Theorem loop_keeps_settings hosts st :
  replacementRules (fst (monitorClipboard hosts st)) = replacementRules st
  /\ monitoring (fst (monitorClipboard hosts st)) = monitoring st
  /\ monitorInterval (fst (monitorClipboard hosts st)) = monitorInterval st.
Proof.
  revert st; induction hosts as [|host later IH]; intros st; cbn [monitorClipboard].
  - auto.
  - destruct (monitor_iteration_core host st) as (Hr & Hm & Hi).
    destruct (monitor_iteration host st) as [st1 evs1]. cbn [fst] in *.
    destruct (IH st1) as (Hr2 & Hm2 & Hi2).
    destruct (monitorClipboard later st1) as [st2 evs2]. cbn [fst] in *.
    repeat split; congruence.
Qed.

Ltac events_done :=
  cbn; repeat split; try lia; intros;
  repeat match goal with
         | H : _ \/ _ |- _ => destruct H
         | H : False |- _ => destruct H
         end;
  try discriminate;
  repeat match goal with
         | H : EvApplyRules _ = EvApplyRules _ |- _ => inversion H; subst; clear H
         | H : EvWriteAll _ _ = EvWriteAll _ _ |- _ => inversion H; subst; clear H
         end;
  repeat split; unfold wrote; cbn; auto 10.

(** What the events of one iteration say about it. *)
Lemma monitor_iteration_events host st :
  let cur := fst (ReadAll host) in
  let out := applyRules st cur in
  let evs := snd (monitor_iteration host st) in
  (forall input, In (EvApplyRules input) evs ->
     input = cur
     /\ monitoring st = true
     /\ snd (ReadAll host) = None
     /\ isTextContent cur = true
     /\ isTextTooLarge cur = false
     /\ String.eqb cur (lastText st) = false)
  /\ (forall data err, In (EvWriteAll data err) evs ->
        data = out
        /\ String.eqb out cur = false
        /\ In (EvApplyRules cur) evs)
  /\ (transforms evs <= 1)%nat
  /\ (write_attempts evs <= 2)%nat
  /\ (List.length (filter is_read evs) <= 1)%nat
  /\ (lastText (fst (monitor_iteration host st)) = lastText st
      \/ wrote (lastText (fst (monitor_iteration host st))) evs).
Proof.
  cbv zeta. unfold monitor_iteration.
  destruct (monitoring st) eqn:Hmon; cbn [negb]; [| events_done].
  destruct (ReadAll host) as [cur [msg|]] eqn:Hread; cbn [fst snd].
  { destruct (String.eqb msg _); events_done. }
  destruct (isTextContent cur) eqn:Htext; cbn [negb]; [| events_done].
  destruct (isTextTooLarge cur) eqn:Hbig; [events_done |].
  destruct (String.eqb cur (lastText st)) eqn:Hlast; cbn [negb]; [events_done |].
  destruct (String.eqb (applyRules st cur) cur) eqn:Hout; cbn [negb];
    [events_done |].
  pose proof (writeToClipboard_cases host (applyRules st cur)) as Hcases.
  destruct (WriteAll host 0) as [e0|]; [destruct (WriteAll host 1) as [e1|] |];
    rewrite Hcases; events_done.
Qed.

End RunOfLoop.

Section RunProperties.

Context {E : regexp.Pkg}.

Implicit Types (st : State E) (host : Host) (hosts : list Host) (evs : list Event).

Lemma applyRules_same_rules (st1 st2 : State E) (text : string) :
  replacementRules st1 = replacementRules st2 ->
  applyRules st1 text = applyRules st2 text.
Proof. unfold applyRules. intros ->. reflexivity. Qed.

Lemma monitorClipboard_cons host hosts st :
  monitorClipboard (host :: hosts) st
  = (fst (monitorClipboard hosts (fst (monitor_iteration host st))),
     (snd (monitor_iteration host st)
        ++ snd (monitorClipboard hosts (fst (monitor_iteration host st))))%list).
Proof.
  cbn [monitorClipboard].
  destruct (monitor_iteration host st) as [st1 evs1]. cbn [fst snd].
  destruct (monitorClipboard hosts st1) as [st2 evs2]. reflexivity.
Qed.

(** In a run of any length, the rule engine is only ever given text that
    [isTextContent] accepts and [isTextTooLarge] does not reject. *)
Theorem only_accepted_text_is_transformed hosts st (input : string) :
  In (EvApplyRules input) (snd (monitorClipboard hosts st)) ->
  isTextContent input = true /\ isTextTooLarge input = false /\ input <> "".
Proof.
  revert st; induction hosts as [|host later IH]; intros st.
  - intros [].
  - rewrite monitorClipboard_cons. cbn [snd]. intros Hin.
    apply in_app_iff in Hin as [Hin | Hin]; [| eapply IH; eassumption].
    destruct (monitor_iteration_events host st) as (Hap & _).
    destruct (Hap _ Hin) as (-> & _ & _ & Htext & Hsmall & _).
    repeat split; try assumption.
    intros Hempty. rewrite Hempty in Htext. discriminate.
Qed.

(** In a run of any length, whatever the loop tries to write is the output
    of [applyRules] for a text it read in the same iteration, and differs
    from that text. *)
Theorem only_changed_text_is_written hosts st (data : string) (err : error) :
  In (EvWriteAll data err) (snd (monitorClipboard hosts st)) ->
  exists input,
    In (EvApplyRules input) (snd (monitorClipboard hosts st))
    /\ data = applyRules st input
    /\ data <> input.
Proof.
  revert st; induction hosts as [|host later IH]; intros st.
  - intros [].
  - rewrite monitorClipboard_cons. cbn [snd]. intros Hin.
    apply in_app_iff in Hin as [Hin | Hin].
    + destruct (monitor_iteration_events host st) as (_ & Hwr & _).
      destruct (Hwr _ _ Hin) as (-> & Hneq & Hap).
      exists (fst (ReadAll host)). split; [apply in_app_iff; left; assumption |].
      split; [reflexivity |]. apply String.eqb_neq. assumption.
    + destruct (IH _ Hin) as (input & Hap & -> & Hneq).
      exists input. split; [apply in_app_iff; right; assumption |].
      split; [| assumption].
      apply applyRules_same_rules. apply monitor_iteration_core.
Qed.

(** A run of n iterations reads the clipboard at most n times, calls
    [applyRules] at most n times and attempts at most 2n writes. *)
Theorem run_effort_bounded hosts st :
  (List.length (filter is_read (snd (monitorClipboard hosts st)))
   <= List.length hosts)%nat
  /\ (transforms (snd (monitorClipboard hosts st)) <= List.length hosts)%nat
  /\ (write_attempts (snd (monitorClipboard hosts st)) <= 2 * List.length hosts)%nat.
Proof.
  revert st; induction hosts as [|host later IH]; intros st.
  - cbn. repeat split; lia.
  - rewrite monitorClipboard_cons. cbn [snd List.length].
    destruct (monitor_iteration_events host st) as (_ & _ & Ht & Hw & Hr & _).
    destruct (IH (fst (monitor_iteration host st))) as (Hr2 & Ht2 & Hw2).
    unfold transforms, write_attempts in *.
    rewrite !filter_app, !length_app. repeat split; lia.
Qed.

(** [lastText] is only ever set to a text the loop wrote with success:
    after a run it is what it was, or a text written during the run. *)
Theorem lastText_is_a_written_text hosts st :
  lastText (fst (monitorClipboard hosts st)) = lastText st
  \/ wrote (lastText (fst (monitorClipboard hosts st)))
       (snd (monitorClipboard hosts st)).
Proof.
  revert st; induction hosts as [|host later IH]; intros st.
  - left. reflexivity.
  - rewrite monitorClipboard_cons. cbn [fst snd].
    destruct (IH (fst (monitor_iteration host st))) as [Hsame | Hw].
    + rewrite Hsame.
      destruct (monitor_iteration_events host st) as (_ & _ & _ & _ & _ & [Hl | Hw]).
      * left. assumption.
      * right. apply wrote_app. left. assumption.
    + right. apply wrote_app. right. assumption.
Qed.

(** Every iteration ends with a pause, except when monitoring is on and
    [ReadAll] fails with an error other than the one the program takes for
    "no text": then the iteration consists of the read alone, the state is
    untouched, and the next iteration follows at once. *)
Theorem iteration_pauses_unless_read_fails host st :
  if monitoring st
     && match snd (ReadAll host) with
        | Some msg => negb (String.eqb msg "The operation completed successfully.")
        | None => false
        end
  then monitor_iteration host st = (st, [EvReadAll])
  else ends_with_sleep (snd (monitor_iteration host st)) = true.
Proof.
  unfold monitor_iteration.
  destruct (monitoring st); cbn [negb andb]; [| reflexivity].
  destruct (ReadAll host) as [cur [msg|]]; cbn [snd].
  { destruct (String.eqb msg _); reflexivity. }
  destruct (isTextContent cur); cbn [negb]; [| reflexivity].
  destruct (isTextTooLarge cur); [reflexivity |].
  destruct (String.eqb cur (lastText st)); cbn [negb]; [reflexivity |].
  destruct (String.eqb (applyRules st cur) cur); cbn [negb]; [reflexivity |].
  destruct (writeToClipboard host (applyRules st cur)) as [[e|] wevs];
    cbn [snd]; unfold ends_with_sleep;
    rewrite !rev_app_distr; reflexivity.
Qed.

End RunProperties.

Lemma only_accepted_text_is_transformed_witness :
  In (EvApplyRules "foofoo")
    (snd (monitorClipboard [Samples.clip "foofoo" 0; Samples.clip "barbar" 0]
            (Samples.st_with [Samples.foo_bar])))
  /\ isTextContent "foofoo" = true.
Proof.
  assert (Hin : In (EvApplyRules "foofoo")
                  (snd (monitorClipboard
                          [Samples.clip "foofoo" 0; Samples.clip "barbar" 0]
                          (Samples.st_with [Samples.foo_bar])))).
  { vm_compute. right. left. reflexivity. }
  split; [exact Hin |].
  exact (proj1 (only_accepted_text_is_transformed _ _ _ Hin)).
Defined.

Lemma only_changed_text_is_written_witness :
  In (EvWriteAll "barbar" None)
    (snd (monitorClipboard [Samples.clip "foofoo" 0; Samples.clip "barbar" 0]
            (Samples.st_with [Samples.foo_bar])))
  /\ exists input,
       "barbar" = applyRules (Samples.st_with [Samples.foo_bar]) input
       /\ "barbar" <> input.
Proof.
  assert (Hin : In (EvWriteAll "barbar" None)
                  (snd (monitorClipboard
                          [Samples.clip "foofoo" 0; Samples.clip "barbar" 0]
                          (Samples.st_with [Samples.foo_bar])))).
  { vm_compute. right. right. left. reflexivity. }
  split; [exact Hin |].
  destruct (only_changed_text_is_written _ _ _ _ Hin) as (input & _ & Hout & Hneq).
  exists input. split; assumption.
Defined.

(** ** Monitor loop on a clipboard of its own *)

Section Undisturbed.

Context {E : regexp.Pkg}.

Implicit Types (st : State E) (clip : string).

Lemma settled_iteration clip st :
  settled clip st = true ->
  write_attempts (snd (monitor_iteration (holding clip) st)) = 0%nat
  /\ clipboard_after clip (snd (monitor_iteration (holding clip) st)) = clip
  /\ same_core (fst (monitor_iteration (holding clip) st)) st.
Proof.
  unfold settled, monitor_iteration, same_core. cbn [holding ReadAll].
  destruct (monitoring st) eqn:Hmon; cbn [negb orb];
    [| intros _; cbn; repeat split; auto].
  destruct (isTextContent clip); cbn [negb orb];
    [| intros _; cbn; repeat split; auto].
  destruct (isTextTooLarge clip); cbn [negb orb];
    [intros _; cbn; repeat split; auto |].
  destruct (String.eqb clip (lastText st)); cbn [negb orb];
    [intros _; cbn; repeat split; auto |].
  intros ->. cbn. repeat split; auto.
Qed.

Lemma settled_same_core clip (st1 st2 : State E) :
  same_core st1 st2 -> settled clip st1 = settled clip st2.
Proof.
  intros (Hm & Hr & _ & Hl). unfold settled, applyRules.
  rewrite Hm, Hr, Hl. reflexivity.
Qed.

Lemma settled_stays n clip st :
  settled clip st = true ->
  write_attempts (snd (undisturbed n clip st)) = 0%nat
  /\ fst (fst (undisturbed n clip st)) = clip
  /\ same_core (snd (fst (undisturbed n clip st))) st.
Proof.
  revert st; induction n as [|n IH]; intros st Hset; cbn [undisturbed].
  - cbn. unfold same_core. repeat split; auto.
  - destruct (settled_iteration clip st Hset) as (Hw & Hc & Hcore).
    destruct (monitor_iteration (holding clip) st) as [st1 evs1].
    cbn [fst snd] in *. rewrite Hc.
    assert (Hset1 : settled clip st1 = true)
      by (rewrite (settled_same_core clip st1 st Hcore); assumption).
    destruct (IH st1 Hset1) as (Hw2 & Hc2 & Hcore2).
    destruct (undisturbed n clip st1) as [[clip2 st2] evs2].
    cbn [fst snd] in *.
    rewrite write_attempts_app, Hw, Hw2.
    repeat split; try assumption; try reflexivity;
      destruct Hcore as (? & ? & ? & ?), Hcore2 as (? & ? & ? & ?); congruence.
Qed.

(** When nobody else touches the clipboard and writes succeed, the loop
    writes at most once however long it runs, even with rules that would
    change their own output again: the clipboard ends up holding either the
    text it held or the output of the rules for that text, and after a write
    [lastText] is the text on the clipboard. *)
Theorem undisturbed_clipboard_written_once (n : nat) clip st :
  (write_attempts (snd (undisturbed n clip st)) <= 1)%nat
  /\ (fst (fst (undisturbed n clip st)) = clip
      \/ fst (fst (undisturbed n clip st)) = applyRules st clip)
  /\ (write_attempts (snd (undisturbed n clip st)) = 1%nat ->
      fst (fst (undisturbed n clip st)) = applyRules st clip
      /\ lastText (snd (fst (undisturbed n clip st))) = applyRules st clip).
Proof.
  destruct (settled clip st) eqn:Hset.
  { destruct (settled_stays n clip st Hset) as (Hw & Hc & _).
    rewrite Hw, Hc. split; [lia |]. split; [left; reflexivity | discriminate]. }
  destruct n as [|n]; cbn [undisturbed].
  { cbn. split; [lia |]. split; [left; reflexivity | discriminate]. }
  unfold settled in Hset.
  repeat (apply orb_false_iff in Hset as [Hset ?]).
  apply negb_false_iff in Hset.
  match goal with H : negb (isTextContent clip) = false |- _ =>
    apply negb_false_iff in H; rename H into Htext end.
  rewrite (monitor_iteration_write_step (holding clip) st clip)
    by (assumption || reflexivity).
  cbn [writeToClipboard writeToClipboard_from maxAttempts holding WriteAll app
         clipboard_after].
  assert (Hset1 : settled (applyRules st clip)
                    (set_lastText (applyRules st clip)
                       (SetText "Successfully wrote to clipboard" st)) = true).
  { unfold settled. cbn [lastText set_lastText]. rewrite String.eqb_refl.
    rewrite !orb_true_r. reflexivity. }
  destruct (settled_stays n _ _ Hset1) as (Hw & Hc & Hcore).
  destruct (undisturbed n (applyRules st clip) _) as [[clip2 st2] evs2].
  cbn [fst snd] in *.
  assert (Hone :
    write_attempts
      ([EvReadAll; EvApplyRules clip; EvWriteAll (applyRules st clip) None;
        EvSleep (monitorInterval st)] ++ evs2) = 1%nat).
  { rewrite write_attempts_app, Hw. reflexivity. }
  cbn [app] in Hone. rewrite Hone.
  split; [lia |]. split; [right; assumption |].
  intros _. split; [assumption |].
  destruct Hcore as (_ & _ & _ & Hl). rewrite Hl. reflexivity.
Qed.

End Undisturbed.

(** With the rule that replaces "a" by "aa", ten iterations on a
    clipboard holding "a" write "aa" once and leave it there. *)
Example undisturbed_a_aa :
  fst (fst (undisturbed 10 "a" (Samples.st_with [Samples.a_aa]))) = "aa"
  /\ write_attempts (snd (undisturbed 10 "a" (Samples.st_with [Samples.a_aa]))) = 1%nat.
Proof. split; reflexivity. Qed.

(** ** Classifier and concatenation *)

Lemma bytes_app (s1 s2 : string) : bytes (s1 ++ s2) = (bytes s1 ++ bytes s2)%list.
Proof.
  induction s1 as [|c s1 IH]; cbn [append bytes app].
  - reflexivity.
  - rewrite IH. reflexivity.
Qed.

(** Joining two non-empty strings gives text exactly when both are text: the
    verdict depends on the bytes alone, so a rune cut in two by the join, or
    made whole by it, makes no difference. *)
Theorem isTextContent_append (s1 s2 : string) :
  s1 <> "" -> s2 <> "" ->
  isTextContent (s1 ++ s2) = isTextContent s1 && isTextContent s2.
Proof.
  intros H1 H2. rewrite !isTextContent_bytes, bytes_app, forallb_app.
  apply String.eqb_neq in H1, H2. rewrite H1, H2.
  destruct s1 as [|c s1]; [discriminate |].
  reflexivity.
Qed.

Lemma isTextContent_append_witness :
  String "a" (String "195" "") <> ""
  /\ String "169" "b" <> ""
  /\ isTextContent (String "a" (String "195" "") ++ String "169" "b")
     = isTextContent (String "a" (String "195" "")) && isTextContent (String "169" "b").
Proof.
  split; [discriminate |]. split; [discriminate |].
  apply isTextContent_append; discriminate.
Defined.

(** ** The encoder on strings that are not UTF-8 *)

(** A stray byte FF between "b" and "r" comes back as U+FFFD. *)
Example written_stray_byte :
  json.written (String "b" (String "255" (String "r" "")))
  = String "b" (String "239" (String "191" (String "189" (String "r" "")))).
Proof. reflexivity. Qed.

(** A two-byte rune is valid and written as it is; cut short, it is not. *)
Example written_two_byte_rune :
  utf8.ValidString (String "195" (String "169" "")) = true
  /\ json.written (String "195" (String "169" "")) = String "195" (String "169" "")
  /\ utf8.ValidString (String "195" "") = false.
Proof. repeat split. Qed.
